(** * System Performance Monitor (Main.py): a shallow embedding and its properties

    The monitor polls host counters, ranks the running processes under
    three keys, appends one row per cycle to a CSV log and redraws a
    console summary.  This file embeds the functions of [Main.py] and
    proves the properties stated about them.

    Conventions of the embedding:
    - Python [int] is [Z] (or [nat] for loop indices); a Python [float]
      that the provider hands over is the rational [Q] it denotes, and the
      rates computed from counters are exact quotients; in [get_size],
      where the text printed depends on it, the arithmetic is that of
      doubles: 53 significant bits, nearest with ties to even, and an
      OverflowError beyond the largest double;
    - a Python [dict] whose key order matters (the log row) is an
      association list with in-place update, a [dict] with a fixed key
      set (a process snapshot) is a record;
    - the operating system is an explicit [world]: every reading the
      program takes consumes the next value of the corresponding oracle,
      and the log file lives in a finite map from paths to lists of rows;
    - Python exceptions are an error type threaded through [result]. *)

From Stdlib Require Import ZArith QArith Qround Qabs Qpower Lia Lqa Ascii.
From Stdlib Require Import DecimalString DecimalNat DecimalZ.
From Stdlib Require Import Sorting.Sorted.
From stdpp Require Import base option list sorting strings gmap.

Open Scope string_scope.

(** ** Python values that reach the log row *)

Inductive pyval : Type :=
  | PyNone
  | PyInt (z : Z)
  | PyFloat (q : Q)
  | PyStr (s : string).

(** The marker written where no value is available. *)
Definition NA : pyval := PyStr "N/A".

(** ** Configuration (Main.py, lines 8-10) *)

Record config :=
  { LOG_FILE : string;
    LOG_INTERVAL_SECONDS : Z;
    TOP_N_PROCESSES : nat }.

(** The values the source assigns. *)
Definition default_config : config :=
  {| LOG_FILE := "system_performance_log.csv";
     LOG_INTERVAL_SECONDS := 3;
     TOP_N_PROCESSES := 5 |}.

(** ** Text rendering of numbers *)

(** [str(i)] and [f'{i}'] for a non-negative Python integer. *)
Definition str_nat (n : nat) : string :=
  NilZero.string_of_uint (Nat.to_uint n).

Definition str_Z (z : Z) : string :=
  if (z <? 0)%Z then "-" +:+ str_nat (Z.to_nat (- z)) else str_nat (Z.to_nat z).

(** Rounding to the nearest integer, ties to the even neighbour: the
    rounding of Python's fixed-point format on an exactly known value. *)
Definition round_half_even (q : Q) : Z :=
  let f := Qfloor q in
  match Qcompare (q - inject_Z f) (1 # 2) with
  | Lt => f
  | Gt => (f + 1)%Z
  | Eq => if Z.even f then f else (f + 1)%Z
  end.

Definition two_digits (z : Z) : string :=
  if (z <? 10)%Z then "0" +:+ str_Z z else str_Z z.

(** [f"{x:.2f}"]: sign, integer part, a dot and exactly two decimals. *)
Definition fmt2 (x : Q) : string :=
  let c := round_half_even (Qabs x * 100) in
  (if Qle_bool 0 x then "" else "-")
    +:+ str_Z (c / 100) +:+ "." +:+ two_digits (c mod 100).

(** ** Exceptions *)

(** Exceptions the monitor names or meets, and one for everything else. *)
Inductive exn : Type :=
  | NoSuchProcess | AccessDenied | ZombieProcess
  | AttributeError | IndexError | KeyError
  | TypeError | OverflowError
  | OtherError.

Inductive result (A : Type) : Type :=
  | Ok (a : A)
  | Raise (e : exn).
Arguments Ok {A} a.
Arguments Raise {A} e.

Definition result_bind {A B} (r : result A) (k : A -> result B) : result B :=
  match r with
  | Ok a => k a
  | Raise e => Raise e
  end.

(** ** Doubles *)

(** A binary number [mantissa * 2 ^ exponent].  It is a double when the
    mantissa has at most 53 bits; the exponent range of the format is
    represented at its upper end only (see [overflows]): every quotient
    taken below is at least 1, so the lower end is never approached. *)
Record dyadic := { mantissa : Z; exponent : Z }.

Definition dyadic_value (x : dyadic) : Q :=
  (inject_Z (mantissa x) * 2 ^ exponent x)%Q.

(** Rounding to 53 significant bits, to the nearest with ties to even:
    what a conversion or a division does to its exact result. *)
Definition round53 (x : dyadic) : dyadic :=
  let bits := Z.log2 (Z.abs (mantissa x)) in
  if (bits <? 53)%Z then x
  else
    let k := (bits - 52)%Z in
    {| mantissa := round_half_even (inject_Z (mantissa x) / inject_Z (2 ^ k));
       exponent := (exponent x + k)%Z |}.

(** The rounded result is [2 ^ 1024] or more in magnitude: no double. *)
Definition overflows (x : dyadic) : bool :=
  Qle_bool (2 ^ 1024) (Qabs (dyadic_value x)).

(** [float(n)], which is also what [format(n, '.2f')] does to an integer
    first. *)
Definition float_of_int (n : Z) : result dyadic :=
  let x := round53 {| mantissa := n; exponent := 0 |} in
  if overflows x then Raise OverflowError else Ok x.

(** [n / 1024] for an integer [n]: the exact quotient, rounded. *)
Definition int_div_factor (n : Z) : result dyadic :=
  let x := round53 {| mantissa := n; exponent := -10 |} in
  if overflows x then Raise OverflowError else Ok x.

(** [x / 1024] for a double [x]. *)
Definition float_div_factor (x : dyadic) : dyadic :=
  round53 {| mantissa := mantissa x; exponent := exponent x - 10 |}.

(** ** get_size (Main.py, lines 41-48) *)

(** The variable [bytes] holds the integer it was called with until the
    first [bytes /= factor], and a float from then on. *)
Inductive number : Type :=
  | Int (n : Z)
  | Float (x : dyadic).

Definition number_value (b : number) : Q :=
  match b with
  | Int n => inject_Z n
  | Float x => dyadic_value x
  end.

Definition factor : Q := 1024.

Definition units : list string := ["" ; "K" ; "M" ; "G" ; "T" ; "P"].

(** [bytes < factor]: integers and floats compare by value. *)
Definition lt_factor (b : number) : bool :=
  negb (Qle_bool factor (number_value b)).

(** [f"{bytes:.2f}"] *)
Definition format_2f (b : number) : result string :=
  match b with
  | Int n => result_bind (float_of_int n) (fun x => Ok (fmt2 (dyadic_value x)))
  | Float x => Ok (fmt2 (dyadic_value x))
  end.

(** [bytes /= factor] *)
Definition div_factor (b : number) : result number :=
  match b with
  | Int n => result_bind (int_div_factor n) (fun x => Ok (Float x))
  | Float x => Ok (Float (float_div_factor x))
  end.

(** The [for unit in ...] loop: return at the first unit whose scaled
    value is below [factor], otherwise divide and go on; after the last
    unit the fall-through [return] of line 48 is taken. *)
Fixpoint get_size_loop (us : list string) (bytes : number) (suffix : string)
    : result string :=
  match us with
  | [] => result_bind (format_2f bytes) (fun text => Ok (text +:+ "P" +:+ suffix))
  | unit :: us' =>
      if lt_factor bytes
      then result_bind (format_2f bytes) (fun text => Ok (text +:+ unit +:+ suffix))
      else result_bind (div_factor bytes) (fun bytes' => get_size_loop us' bytes' suffix)
  end.

(** Every call of the program passes an integer byte count. *)
Definition get_size (bytes : Z) (suffix : string) : result string :=
  get_size_loop units (Int bytes) suffix.

(** ** The metrics provider and the host *)

(** Counter records of the provider, with the fields the monitor reads. *)
Record sdiskio := { read_bytes : Z; write_bytes : Z }.
Record snetio := { bytes_sent : Z; bytes_recv : Z }.
Record svmem :=
  { vm_total : Z; vm_available : Z; vm_percent : Q; vm_used : Z;
    vm_cached : option Z (* absent on platforms without the attribute *) }.
Record sdiskusage := { du_percent : Q }.
Record pmem := { rss : Z; vms : Z }.
Record pio := { pio_read_bytes : Z; pio_write_bytes : Z }.

(** [proc.info]: the attribute dictionary that [process_iter] prepared.
    An attribute the provider could not obtain is [None]; this is
    represented for the name and the two structured attributes, while
    the CPU percent and the creation time are taken to be the numbers
    the ranking and the subtraction need. *)
Record pinfo :=
  { info_pid : Z; info_name : option string; info_cpu_percent : Q;
    info_memory_info : option pmem; info_io_counters : option pio;
    info_create_time : Q }.

(** A process handle: reading it in the loop body gives its dictionary
    or raises. *)
Record process := { info : result pinfo }.

(** One reading of a temperature sensor.  The provider returns named
    tuples, which have attributes and no [get] method; a plain dictionary
    has [get] and no attributes. *)
Inductive sensor_entry : Type :=
  | shwtemp (label : string) (current : Q) (high critical : option Q)
  | entry_dict (d : list (string * pyval)).

(** Sensor groups in the dictionary's insertion order. *)
Definition sensors : Type := list (string * list sensor_entry).

(** Every reading the program takes from its environment. *)
Inductive probe : Type :=
  | time_time | datetime_now
  | psutil_boot_time
  | psutil_disk_io_counters | psutil_net_io_counters
  | psutil_cpu_percent | psutil_cpu_percent_percpu
  | psutil_virtual_memory | psutil_disk_usage
  | psutil_sensors_temperatures | psutil_process_iter.

Definition answer (p : probe) : Type :=
  match p with
  | time_time | psutil_boot_time | psutil_cpu_percent => Q
  | datetime_now => string   (* already formatted '%Y-%m-%d %H:%M:%S' *)
  | psutil_disk_io_counters => sdiskio
  | psutil_net_io_counters => snetio
  | psutil_cpu_percent_percpu => list Q
  | psutil_virtual_memory => svmem
  | psutil_disk_usage => sdiskusage
  | psutil_sensors_temperatures => result sensors
  | psutil_process_iter => list process
  end.

Global Instance probe_eq_dec : EqDecision probe.
Proof. solve_decision. Defined.

(** A CSV file is its list of rows, a row its list of cells. *)
Abbreviation csv_row := (list pyval).

(** The host: for each probe the sequence of values its successive
    calls return and the number of calls made so far, the seconds spent
    in [time.sleep], the files, and the lines printed since the last
    clearing of the console. *)
Record world :=
  { oracle : forall p : probe, nat -> answer p;
    cursor : probe -> nat;
    slept : Z;
    files : gmap string (list csv_row);
    screen : list string }.

(** ** Effects: state passing with exceptions *)

Definition io (A : Type) : Type := world -> result A * world.

Definition io_ret {A} (a : A) : io A := fun w => (Ok a, w).

Definition io_bind {A B} (m : io A) (k : A -> io B) : io B :=
  fun w =>
    match m w with
    | (Ok a, w') => k a w'
    | (Raise e, w') => (Raise e, w')
    end.

Definition io_raise {A} (e : exn) : io A := fun w => (Raise e, w).

Declare Scope io_scope.
Delimit Scope io_scope with io.
Notation "x <- m ;; k" := (io_bind m (fun x => k))
  (at level 100, m at next level, right associativity) : io_scope.
Notation "m ;;; k" := (io_bind m (fun _ => k))
  (at level 100, right associativity) : io_scope.

(** The host after one more call of probe [p]. *)
Definition advance (p : probe) (w : world) : world :=
  {| oracle := oracle w;
     cursor := fun p' => if decide (p' = p) then S (cursor w p') else cursor w p';
     slept := slept w; files := files w; screen := screen w |}.

Definition set_slept (s : Z) (w : world) : world :=
  {| oracle := oracle w; cursor := cursor w; slept := s;
     files := files w; screen := screen w |}.

Definition set_files (fs : gmap string (list csv_row)) (w : world) : world :=
  {| oracle := oracle w; cursor := cursor w; slept := slept w;
     files := fs; screen := screen w |}.

Definition set_screen (lines : list string) (w : world) : world :=
  {| oracle := oracle w; cursor := cursor w; slept := slept w;
     files := files w; screen := lines |}.

(** Take the next value of probe [p]. *)
Definition ask (p : probe) : io (answer p) :=
  fun w => (Ok (oracle w p (cursor w p)), advance p w).

(** [time.sleep(s)] *)
Definition sleep (s : Z) : io unit :=
  fun w => (Ok tt, set_slept (slept w + s)%Z w).

(** ** get_io_rates (Main.py, lines 50-68) *)

Definition get_io_rates : io (Z * Z * Q * Q) :=
  (last_disk <- ask psutil_disk_io_counters ;;
   last_net <- ask psutil_net_io_counters ;;
   sleep 1 ;;;
   new_disk <- ask psutil_disk_io_counters ;;
   new_net <- ask psutil_net_io_counters ;;
   let disk_read_s := (read_bytes new_disk - read_bytes last_disk)%Z in
   let disk_write_s := (write_bytes new_disk - write_bytes last_disk)%Z in
   let bytes_sent_s := (bytes_sent new_net - bytes_sent last_net)%Z in
   let bytes_recv_s := (bytes_recv new_net - bytes_recv last_net)%Z in
   let mbps_sent := (inject_Z (bytes_sent_s * 8) / 1000000)%Q in
   let mbps_recv := (inject_Z (bytes_recv_s * 8) / 1000000)%Q in
   io_ret (disk_read_s, disk_write_s, mbps_sent, mbps_recv))%io.

(** ** get_all_processes_info (Main.py, lines 70-93) *)

(** The dictionary appended to [processes] for one process. *)
Record snapshot :=
  { pid : Z; name : option string; cpu_percent : Q;
    mem_rss : Z; mem_vms : Z;
    disk_read_bytes : Z; disk_write_bytes : Z;
    disk_io_total : Z;
    execution_time_s : Q }.

(** The exceptions of the [except] clause at line 91. *)
Definition is_transient (e : exn) : bool :=
  match e with
  | NoSuchProcess | AccessDenied | ZombieProcess => true
  | _ => false
  end.

(** The body of the [try] (lines 76-90) for one process.  [None] for
    [io_counters] is tested by the source; [.rss] on [None] raises. *)
Definition snapshot_of (current_time : Q) (proc : process) : result snapshot :=
  match info proc with
  | Raise e => Raise e
  | Ok pinfo =>
      let disk_io_total :=
        match info_io_counters pinfo with
        | Some c => (pio_read_bytes c + pio_write_bytes c)%Z
        | None => 0%Z
        end in
      match info_memory_info pinfo with
      | None => Raise AttributeError
      | Some mem =>
          Ok {| pid := info_pid pinfo;
                name := info_name pinfo;
                cpu_percent := info_cpu_percent pinfo;
                mem_rss := rss mem;
                mem_vms := vms mem;
                disk_read_bytes :=
                  match info_io_counters pinfo with
                  | Some c => pio_read_bytes c | None => 0%Z end;
                disk_write_bytes :=
                  match info_io_counters pinfo with
                  | Some c => pio_write_bytes c | None => 0%Z end;
                disk_io_total := disk_io_total;
                execution_time_s := (current_time - info_create_time pinfo)%Q |}
      end
  end.

(** The [for] loop with its [try]/[except]: [processes] accumulates. *)
Fixpoint enumerate (current_time : Q) (procs : list process)
    (processes : list snapshot) : result (list snapshot) :=
  match procs with
  | [] => Ok processes
  | proc :: rest =>
      match snapshot_of current_time proc with
      | Ok s => enumerate current_time rest (processes ++ [s])%list
      | Raise e =>
          if is_transient e then enumerate current_time rest processes
          else Raise e
      end
  end.

Definition io_lift {A} (r : result A) : io A := fun w => (r, w).

Definition get_all_processes_info : io (list snapshot) :=
  (current_time <- ask time_time ;;
   procs <- ask psutil_process_iter ;;
   io_lift (enumerate current_time procs []))%io.

(** The enumeration as the specification words it: the clock is read
    again for every process.  Not the source; kept for comparison. *)
Fixpoint enumerate_rereading_clock (procs : list process)
    (processes : list snapshot) : io (list snapshot) :=
  match procs with
  | [] => io_ret processes
  | proc :: rest =>
      (current_time <- ask time_time ;;
       match snapshot_of current_time proc with
       | Ok s => enumerate_rereading_clock rest (processes ++ [s])%list
       | Raise e =>
           if is_transient e then enumerate_rereading_clock rest processes
           else io_raise e
       end)%io
  end.

Definition get_all_processes_info_rereading_clock : io (list snapshot) :=
  (procs <- ask psutil_process_iter ;;
   enumerate_rereading_clock procs [])%io.

(** ** Python dictionaries with insertion order *)

Definition dict (V : Type) : Type := list (string * V).

Fixpoint dict_get {V} (d : dict V) (k : string) : option V :=
  match d with
  | [] => None
  | (k', v) :: d' => if String.eqb k' k then Some v else dict_get d' k
  end.

(** [d[k] = v]: an existing key keeps its position, a new one goes last. *)
Fixpoint dict_set {V} (d : dict V) (k : string) (v : V) : dict V :=
  match d with
  | [] => [(k, v)]
  | (k', v') :: d' =>
      if String.eqb k' k then (k', v) :: d' else (k', v') :: dict_set d' k v
  end.

Definition dict_keys {V} (d : dict V) : list string := map fst d.
Definition dict_values {V} (d : dict V) : list V := map snd d.

(** [d.update(items)], also a run of assignments [d[k] = v]. *)
Definition dict_update {V} (d : dict V) (items : list (string * V)) : dict V :=
  fold_left (fun d kv => dict_set d (fst kv) (snd kv)) items d.

(** ** The temperature lookup of run_spm (Main.py, lines 115-124) *)

(** [l[0]] *)
Definition index0 {A} (l : list A) : result A :=
  match l with
  | x :: _ => Ok x
  | [] => Raise IndexError
  end.

(** [e.get(k, dflt)]: a method of dictionaries only. *)
Definition entry_get (e : sensor_entry) (k : string) (dflt : pyval) : result pyval :=
  match e with
  | entry_dict d => Ok (default dflt (dict_get d k))
  | shwtemp _ _ _ _ => Raise AttributeError
  end.

(** [e.current]: an attribute of the named tuple only. *)
Definition entry_current (e : sensor_entry) : result pyval :=
  match e with
  | shwtemp _ c _ _ => Ok (PyFloat c)
  | entry_dict _ => Raise AttributeError
  end.

(** [v == 'N/A'] *)
Definition is_NA (v : pyval) : bool :=
  match v with
  | PyStr s => String.eqb s "N/A"
  | _ => false
  end.

(** Lines 118-122, inside the [try]. *)
Definition lookup_temperature (temps : sensors) : result pyval :=
  result_bind (index0 (default [entry_dict []] (dict_get temps "coretemp")))
    (fun first =>
  result_bind (entry_get first "current" NA) (fun cpu_temp =>
  if is_NA cpu_temp && negb (bool_decide (temps = []))
  then
    result_bind (index0 (dict_values temps)) (fun group =>
    result_bind (index0 group) (fun first_sensor =>
    entry_current first_sensor))
  else Ok cpu_temp)).

(** Lines 115-124: the call, the lookup and the [except] clause. *)
Definition read_temperature (reading : result sensors) : result pyval :=
  match result_bind reading lookup_temperature with
  | Raise AttributeError | Raise IndexError | Raise KeyError => Ok NA
  | r => r
  end.

(** ** Ranking (Main.py, lines 142-144) *)

(** [sorted(l, key=key, reverse=True)]: descending in the key, and
    stable, so elements with equal keys keep the order of [l].  The head
    [x] precedes every element of the sorted tail whose key is not
    larger than its own. *)
Fixpoint insert_desc {A} (key : A -> Q) (x : A) (l : list A) : list A :=
  match l with
  | [] => [x]
  | y :: l' =>
      if Qle_bool (key y) (key x) then x :: y :: l'
      else y :: insert_desc key x l'
  end.

Definition sorted_reverse {A} (key : A -> Q) (l : list A) : list A :=
  foldr (insert_desc key) [] l.

(** [sorted(all_procs, key=..., reverse=True)[:n]] *)
Definition top_by {A} (n : nat) (key : A -> Q) (l : list A) : list A :=
  take n (sorted_reverse key l).

Definition key_cpu (p : snapshot) : Q := cpu_percent p.
Definition key_mem (p : snapshot) : Q := inject_Z (mem_rss p).
Definition key_disk (p : snapshot) : Q := inject_Z (disk_io_total p).

(** ** The log schema: setup_csv and log_to_csv (Main.py, lines 12-39) *)

Definition system_columns : list string :=
  [ "timestamp"; "cpu_usage_total"; "cpu_usage_per_core"; "memory_usage_percent";
    "memory_used"; "memory_available"; "memory_cached"; "disk_usage_percent";
    "disk_io_read_bytes_s"; "disk_io_write_bytes_s"; "network_io_sent_mbps";
    "network_io_recv_mbps"; "system_uptime_seconds"; "system_temp_celsius" ].

Definition categories : list string := ["cpu"; "memory"; "disk_io"].

(** [f'top_{category}_{rank}_<field>'] *)
Definition column (category : string) (rank : nat) (field : string) : string :=
  "top_" +:+ category +:+ "_" +:+ str_nat rank +:+ "_" +:+ field.

(** The list passed to [header.extend] at lines 24-28. *)
Definition process_columns (category : string) (i : nat) : list string :=
  [ column category i "pid"; column category i "name";
    column category i "cpu_percent"; column category i "mem_rss";
    column category i "mem_vms"; column category i "disk_read_bytes";
    column category i "disk_write_bytes"; column category i "execution_time_s" ].

(** Lines 14-28; [range(1, n + 1)] is [seq 1 n]. *)
Definition header (cfg : config) : list string :=
  fold_left
    (fun columns category =>
       fold_left (fun columns i => (columns ++ process_columns category i)%list)
         (seq 1 (TOP_N_PROCESSES cfg)) columns)
    categories system_columns.

Definition setup_csv (cfg : config) : io unit :=
  fun w =>
    match files w !! LOG_FILE cfg with
    | None =>
        (Ok tt, set_files (<[LOG_FILE cfg := [map PyStr (header cfg)]]> (files w)) w)
    | Some _ => (Ok tt, w)
    end.

(** Opening in mode ['a'] creates a missing file; the row holds the
    values of [data] in the order of its keys. *)
Definition log_to_csv (cfg : config) (data : dict pyval) : io unit :=
  fun w =>
    (Ok tt,
     set_files
       (<[LOG_FILE cfg := (default [] (files w !! LOG_FILE cfg) ++ [dict_values data])%list]>
          (files w)) w).

(** ** Building the row (Main.py, lines 127-157) *)

(** [proc_data.get(field, 'N/A')], where [proc_data] is a snapshot or
    the empty dictionary. *)
Definition proc_get (proc_data : option snapshot) (field : snapshot -> pyval) : pyval :=
  match proc_data with
  | Some p => field p
  | None => NA
  end.

(** The name of a snapshot as a Python value. *)
Definition py_name (p : snapshot) : pyval :=
  match name p with
  | Some s => PyStr s
  | None => PyNone
  end.

(** The eight assignments of lines 150-157 for slot [i] (from 0). *)
Definition slot_items (category : string) (i : nat) (proc_data : option snapshot)
    : list (string * pyval) :=
  [ (column category (i + 1) "pid", proc_get proc_data (fun p => PyInt (pid p)));
    (column category (i + 1) "name", proc_get proc_data py_name);
    (column category (i + 1) "cpu_percent",
      proc_get proc_data (fun p => PyFloat (cpu_percent p)));
    (column category (i + 1) "mem_rss", proc_get proc_data (fun p => PyInt (mem_rss p)));
    (column category (i + 1) "mem_vms", proc_get proc_data (fun p => PyInt (mem_vms p)));
    (column category (i + 1) "disk_read_bytes",
      proc_get proc_data (fun p => PyInt (disk_read_bytes p)));
    (column category (i + 1) "disk_write_bytes",
      proc_get proc_data (fun p => PyInt (disk_write_bytes p)));
    (column category (i + 1) "execution_time_s",
      proc_get proc_data (fun p => PyFloat (execution_time_s p))) ].

(** Lines 147-157; [data[i] if i < len(data) else {}] is [data !! i]. *)
Definition flatten (cfg : config) (tops : list (string * list snapshot))
    (log_data : dict pyval) : dict pyval :=
  fold_left
    (fun log_data '(category, data) =>
       fold_left
         (fun log_data i => dict_update log_data (slot_items category i (data !! i)))
         (seq 0 (TOP_N_PROCESSES cfg)) log_data)
    tops log_data.

(** ** The console listing of the ranked tasks (Main.py, lines 168-180) *)

Fixpoint spaces (n : nat) : string :=
  match n with
  | O => ""
  | S n' => " " +:+ spaces n'
  end.

(** [f"{s:<width}"]: padded on the right with spaces, never shortened
    (the length is counted in bytes, which is the number of characters
    for ASCII text). *)
Definition ljust (width : nat) (s : string) : string :=
  s +:+ spaces (width - String.length s).

(** [f"{p['name']:<20}"]: [None] has no such format. *)
Definition format_name (nm : option string) : result string :=
  match nm with
  | Some s => Ok (ljust 20 s)
  | None => Raise TypeError
  end.

(** The f-strings of lines 170, 175 and 180, evaluated from left to
    right; the line is printed only when all of it could be formatted. *)
Definition task_prefix (p : snapshot) : result string :=
  result_bind (format_name (name p)) (fun nm =>
  Ok ("  PID: " +:+ ljust 6 (str_Z (pid p)) +:+ " | Name: " +:+ nm)).

Definition cpu_task_line (p : snapshot) : result string :=
  result_bind (task_prefix p) (fun prefix =>
  Ok (prefix +:+ " | Usage: " +:+ fmt2 (cpu_percent p) +:+ "%")).

Definition mem_task_line (p : snapshot) : result string :=
  result_bind (task_prefix p) (fun prefix =>
  result_bind (get_size (mem_rss p) "B") (fun size =>
  Ok (prefix +:+ " | Usage: " +:+ size))).

Definition disk_task_line (p : snapshot) : result string :=
  result_bind (task_prefix p) (fun prefix =>
  result_bind (get_size (disk_io_total p) "B") (fun size =>
  Ok (prefix +:+ " | I/O: " +:+ size))).

(** [print]: one more line on the console. *)
Definition print (line : string) : io unit :=
  fun w => (Ok tt, set_screen (screen w ++ [line])%list w).

(** [os.system('clear')] *)
Definition clear_screen : io unit :=
  fun w => (Ok tt, set_screen [] w).

(** [for p in tasks: print(line p)] *)
Fixpoint print_tasks (line : snapshot -> result string) (tasks : list snapshot)
    : io unit :=
  match tasks with
  | [] => io_ret tt
  | p :: rest => (text <- io_lift (line p) ;; print text ;;; print_tasks line rest)%io
  end.

(** ** run_spm (Main.py, lines 95-190) *)

Section Monitor.

(** Renderings of the Python runtime taken as given: [str] of a float,
    the calendar form ['%Y-%m-%d %H:%M'] of a timestamp, and the message
    of an exception. *)
Variable str_float : Q -> string.
Variable strftime_minutes : Q -> string.
Variable str_exn : exn -> string.

Variable cfg : config.

Definition str_pyval (v : pyval) : string :=
  match v with
  | PyNone => "None"
  | PyInt z => str_Z z
  | PyFloat q => str_float q
  | PyStr s => s
  end.

(** The dictionary literal of lines 127-137. *)
Definition system_items (timestamp : string) (cpu_total : Q) (cpu_per_core : list Q)
    (mem : svmem) (usage : sdiskusage) (disk_read_s disk_write_s : Z)
    (mbps_sent mbps_recv uptime : Q) (cpu_temp : pyval) : list (string * pyval) :=
  [ ("timestamp", PyStr timestamp);
    ("cpu_usage_total", PyFloat cpu_total);
    ("cpu_usage_per_core", PyStr (String.concat "," (map str_float cpu_per_core)));
    ("memory_usage_percent", PyFloat (vm_percent mem));
    ("memory_used", PyInt (vm_used mem));
    ("memory_available", PyInt (vm_available mem));
    ("memory_cached", PyInt (default 0%Z (vm_cached mem)));
    ("disk_usage_percent", PyFloat (du_percent usage));
    ("disk_io_read_bytes_s", PyInt disk_read_s);
    ("disk_io_write_bytes_s", PyInt disk_write_s);
    ("network_io_sent_mbps", PyFloat mbps_sent);
    ("network_io_recv_mbps", PyFloat mbps_recv);
    ("system_uptime_seconds", PyFloat uptime);
    ("system_temp_celsius", cpu_temp) ].

(** The three selections of lines 142-144, paired with their category
    as in the list of line 147. *)
Definition selections (all_procs : list snapshot) : list (string * list snapshot) :=
  [ ("cpu", top_by (TOP_N_PROCESSES cfg) key_cpu all_procs);
    ("memory", top_by (TOP_N_PROCESSES cfg) key_mem all_procs);
    ("disk_io", top_by (TOP_N_PROCESSES cfg) key_disk all_procs) ].

(** The row of one cycle, from what the cycle read (lines 104-157). *)
Definition build_log_data (sys : list (string * pyval)) (all_procs : list snapshot)
    : dict pyval :=
  flatten cfg (selections all_procs) (dict_update [] sys).

(** [print(f"\n...")]: an empty line, then the text. *)
Definition print_nl (line : string) : io unit :=
  (print "" ;;; print line)%io.

Definition degrees_C : string :=
  String (Ascii.ascii_of_nat 194) (String (Ascii.ascii_of_nat 176) "C").

(** The console output of one cycle (lines 163-182).  A line whose text
    cannot be formatted raises before anything of it is printed. *)
Definition display (timestamp : string) (cpu_total : Q) (cpu_per_core : list Q)
    (cpu_temp : pyval) (mem : svmem) (usage : sdiskusage)
    (disk_read_s disk_write_s : Z) (mbps_sent mbps_recv : Q)
    (top_cpu top_mem top_disk : list snapshot) : io unit :=
  (clear_screen ;;;
   print ("--- System Performance Monitor --- (Logging to " +:+ LOG_FILE cfg +:+ ")") ;;;
   boot <- ask psutil_boot_time ;;
   print ("--- Timestamp: " +:+ timestamp +:+ " | Uptime: "
          +:+ strftime_minutes boot +:+ " ---") ;;;
   print_nl ("CPU Usage: " +:+ str_float cpu_total +:+ "% | Per Core: ["
             +:+ String.concat ", " (map str_float cpu_per_core) +:+ "] | Temp: "
             +:+ str_pyval cpu_temp +:+ degrees_C) ;;;
   print "Top CPU Consuming Tasks:" ;;;
   print_tasks cpu_task_line top_cpu ;;;
   used <- io_lift (get_size (vm_used mem) "B") ;;
   total <- io_lift (get_size (vm_total mem) "B") ;;
   print_nl ("Memory Usage: " +:+ str_float (vm_percent mem) +:+ "% (Used: "
             +:+ used +:+ " / Total: " +:+ total +:+ ")") ;;;
   print "Top Memory Consuming Tasks (RSS):" ;;;
   print_tasks mem_task_line top_mem ;;;
   read <- io_lift (get_size disk_read_s "B") ;;
   write <- io_lift (get_size disk_write_s "B") ;;
   print_nl ("Disk Usage (/): " +:+ str_float (du_percent usage) +:+ "% (Read: "
             +:+ read +:+ "/s | Write: " +:+ write +:+ "/s)") ;;;
   print "Top Disk I/O Tasks:" ;;;
   print_tasks disk_task_line top_disk ;;;
   print_nl ("Network Speed (Upload: " +:+ fmt2 mbps_sent +:+ " Mbps | Download: "
             +:+ fmt2 mbps_recv +:+ " Mbps)"))%io.

(** One iteration of the [while True] loop (lines 103-185); the result
    is the row that was logged. *)
Definition cycle : io (dict pyval) :=
  (rates <- get_io_rates ;;
   let '(disk_read_s, disk_write_s, mbps_sent, mbps_recv) := rates in
   cpu_total <- ask psutil_cpu_percent ;;
   cpu_per_core <- ask psutil_cpu_percent_percpu ;;
   mem <- ask psutil_virtual_memory ;;
   usage <- ask psutil_disk_usage ;;
   now <- ask time_time ;;
   boot <- ask psutil_boot_time ;;
   let uptime := (now - boot)%Q in
   temps <- ask psutil_sensors_temperatures ;;
   cpu_temp <- io_lift (read_temperature temps) ;;
   timestamp <- ask datetime_now ;;
   let sys :=
     system_items timestamp cpu_total cpu_per_core mem usage disk_read_s
       disk_write_s mbps_sent mbps_recv uptime cpu_temp in
   all_procs <- get_all_processes_info ;;
   let top_cpu := top_by (TOP_N_PROCESSES cfg) key_cpu all_procs in
   let top_mem := top_by (TOP_N_PROCESSES cfg) key_mem all_procs in
   let top_disk := top_by (TOP_N_PROCESSES cfg) key_disk all_procs in
   let log_data := build_log_data sys all_procs in
   log_to_csv cfg log_data ;;;
   display timestamp cpu_total cpu_per_core cpu_temp mem usage disk_read_s
     disk_write_s mbps_sent mbps_recv top_cpu top_mem top_disk ;;;
   sleep (Z.max 0 (LOG_INTERVAL_SECONDS cfg - 1)) ;;;
   io_ret log_data)%io.

Fixpoint cycles (n : nat) : io unit :=
  match n with
  | O => io_ret tt
  | S n' => (cycle ;;; cycles n')%io
  end.

(** The [try] of lines 101-190 around the loop, interrupted from the
    keyboard after [n] complete cycles; an exception leaving a cycle ends
    the loop with a message. *)
Definition monitor_loop (n : nat) : io unit :=
  fun w =>
    match cycles n w with
    | (Ok _, w') => print_nl "SPM stopped by user. Exiting." w'
    | (Raise e, w') => print ("An error occurred: " +:+ str_exn e) w'
    end.

(** The whole program: the log is set up and the CPU counter primed
    (lines 97-99) before the [try] is entered. *)
Definition run_spm (n : nat) : io unit :=
  (setup_csv cfg ;;; ask psutil_cpu_percent ;;; monitor_loop n)%io.

End Monitor.

(** ** Notions used in the statements *)

Fixpoint no_underscore (s : string) : Prop :=
  match s with
  | EmptyString => True
  | String c s' => c <> "_"%char /\ no_underscore s'
  end.

Definition fields : list string :=
  [ "pid"; "name"; "cpu_percent"; "mem_rss"; "mem_vms";
    "disk_read_bytes"; "disk_write_bytes"; "execution_time_s" ].

Definition top_columns (n : nat) : list string :=
  flat_map (fun category => flat_map (process_columns category) (seq 1 n)) categories.

(** The assignments of lines 147-157, in the order they are made. *)
Definition slot_list (n : nat) (tops : list (string * list snapshot))
    : list (string * pyval) :=
  flat_map
    (fun top => flat_map (fun i => slot_items (fst top) i (snd top !! i)) (seq 0 n))
    tops.

(** [scaled d b]: [b] after [d] exact divisions by 1024. *)
Definition scaled (d : nat) (b : Q) : Q := Nat.iter d (fun x => x / factor)%Q b.

(** The first quotient [get_size] takes of the integer [n]: the double
    nearest to [n / 1024]. *)
Definition first_quotient (n : Z) : Q :=
  dyadic_value (round53 {| mantissa := n; exponent := -10 |}).

(** The value [get_size] holds for the integer [n] after [d] divisions:
    [n] itself before the first, and from then on the first quotient
    divided on by 1024, which a double of this size allows exactly. *)
Definition rendered (d : nat) (n : Z) : Q :=
  match d with
  | O => inject_Z n
  | S d' => scaled d' (first_quotient n)
  end.

(** The mantissa fits the 53 bits of the format. *)
Definition is_double (x : dyadic) : Prop := (Z.abs (mantissa x) <= 2 ^ 53)%Z.

(** The console after a display that went through: between the fixed
    lines, each listing holds the lines of its ranked tasks, one for one. *)
Definition listing_shown (top_cpu top_mem top_disk : list snapshot)
    (lines : list string) : Prop :=
  exists head_lines cpu_listing mem_lines mem_listing disk_lines disk_listing net_lines,
    lines
    = (head_lines ++ "Top CPU Consuming Tasks:" :: cpu_listing
       ++ mem_lines ++ "Top Memory Consuming Tasks (RSS):" :: mem_listing
       ++ disk_lines ++ "Top Disk I/O Tasks:" :: disk_listing
       ++ net_lines)%list /\
    map cpu_task_line top_cpu = map Ok cpu_listing /\
    map mem_task_line top_mem = map Ok mem_listing /\
    map disk_task_line top_disk = map Ok disk_listing /\
    length head_lines = 4 /\ length mem_lines = 2 /\ length disk_lines = 2 /\
    length net_lines = 2.

Definition sample_process (p : Z) (nm : string) (cpu : Q) (mem : Z) : process :=
  {| info := Ok {| info_pid := p; info_name := Some nm; info_cpu_percent := cpu;
                   info_memory_info := Some {| rss := mem; vms := 2 * mem |};
                   info_io_counters := Some {| pio_read_bytes := 10; pio_write_bytes := 5 |};
                   info_create_time := 40 |} |}.

(** The disk counters read 100/50 and then 180/95, the network counters
    advance by 125000 and 250000 bytes, the clock moves on by one second
    at every reading, and two processes can be read while a third has
    vanished. *)
Definition sample_oracle (p : probe) : nat -> answer p :=
  match p return nat -> answer p with
  | time_time => fun i => inject_Z (100 + Z.of_nat i)
  | datetime_now => fun _ => "2024-01-01 00:00:00"
  | psutil_boot_time => fun _ => 0%Q
  | psutil_disk_io_counters => fun i =>
      match i with
      | O => {| read_bytes := 100; write_bytes := 50 |}
      | S _ => {| read_bytes := 180; write_bytes := 95 |}
      end
  | psutil_net_io_counters => fun i =>
      match i with
      | O => {| bytes_sent := 1000; bytes_recv := 2000 |}
      | S _ => {| bytes_sent := 126000; bytes_recv := 252000 |}
      end
  | psutil_cpu_percent => fun _ => (25 # 2)%Q
  | psutil_cpu_percent_percpu => fun _ => [10%Q; 15%Q]
  | psutil_virtual_memory => fun _ =>
      {| vm_total := 8192; vm_available := 4096; vm_percent := 50;
         vm_used := 4096; vm_cached := None |}
  | psutil_disk_usage => fun _ => {| du_percent := 40 |}
  | psutil_sensors_temperatures => fun _ =>
      Ok [("acpitz", [shwtemp "" 45 None None])]
  | psutil_process_iter => fun _ =>
      [ sample_process 1 "init" 0 1536;
        {| info := Raise NoSuchProcess |};
        sample_process 7 "spm" 3 4096 ]
  end.

Definition sample_world : world :=
  {| oracle := sample_oracle; cursor := fun _ => O; slept := 0;
     files := ∅; screen := [] |}.

(** Stand-ins for the renderings of the runtime, used where a cycle is run
    on the sample host. *)
Definition sample_str_float (x : Q) : string := fmt2 x.
Definition sample_strftime (t : Q) : string := "1970-01-01 00:00".

(** The eight fields of a slot with the value each takes from a snapshot. *)
Definition field_values : list (string * (snapshot -> pyval)) :=
  [ ("pid", fun p => PyInt (pid p));
    ("name", py_name);
    ("cpu_percent", fun p => PyFloat (cpu_percent p));
    ("mem_rss", fun p => PyInt (mem_rss p));
    ("mem_vms", fun p => PyInt (mem_vms p));
    ("disk_read_bytes", fun p => PyInt (disk_read_bytes p));
    ("disk_write_bytes", fun p => PyInt (disk_write_bytes p));
    ("execution_time_s", fun p => PyFloat (execution_time_s p)) ].

(** [line] shows the text [sub] somewhere. *)
Definition contains (sub line : string) : Prop :=
  exists before after, line = before +:+ sub +:+ after.

(** The display part of the padding statement as it is worded: every
    slot beyond the selection has a line of its own in the task listing
    and that line shows the marker. *)
Definition unfilled_slots_shown (n : nat) (sel : list snapshot)
    (task_lines : list string) : Prop :=
  forall i, length sel <= i < n ->
    exists line, task_lines !! i = Some line /\ contains "N/A" line.

Definition lone_snapshot : snapshot :=
  {| pid := 1; name := Some "init"; cpu_percent := 0; mem_rss := 1536; mem_vms := 3072;
     disk_read_bytes := 10; disk_write_bytes := 5; disk_io_total := 15;
     execution_time_s := 60 |}.

(** [a] may stand before [b] in a list that descends in [key]. *)
Definition descending {A} (key : A -> Q) (a b : A) : Prop := (key b <= key a)%Q.

(** [sel] is a ranking of [l] under [key] with at most [n] places: in
    descending key order, of length [min n (length l)], made of elements
    of [l] none of which has a smaller key than an element left out, and
    with the elements of any one key value in the order they have in [l]. *)
Definition ranked {A} (n : nat) (key : A -> Q) (l sel : list A) : Prop :=
  StronglySorted (descending key) sel /\
  length sel = Nat.min n (length l) /\
  length sel <= n /\
  (exists rest, (sel ++ rest)%list ≡ₚ l /\
     forall a b, a ∈ sel -> b ∈ rest -> (key b <= key a)%Q) /\
  (forall k, List.filter (fun x => Qeq_bool (key x) k) sel
             `prefix_of` List.filter (fun x => Qeq_bool (key x) k) l).

(** Five processes with CPU percents 10, 55, 55, 2, 30 and pids 1 to 5. *)
Definition five_processes : list snapshot :=
  map (fun pc : Z * Q =>
         {| pid := fst pc; name := Some "p"; cpu_percent := snd pc; mem_rss := 0;
            mem_vms := 0; disk_read_bytes := 0; disk_write_bytes := 0;
            disk_io_total := 0; execution_time_s := 0 |})
    [(1%Z, 10%Q); (2%Z, 55%Q); (3%Z, 55%Q); (4%Z, 2%Q); (5%Z, 30%Q)].

(** What the loop keeps of one process. *)
Definition kept (current_time : Q) (proc : process) : option snapshot :=
  match snapshot_of current_time proc with
  | Ok s => Some s
  | Raise _ => None
  end.

(** A host like the sample one on which the second process of the table
    was denied its memory figures. *)
Definition denied_process : process :=
  {| info := Ok {| info_pid := 9; info_name := Some "root_daemon"; info_cpu_percent := 1;
                   info_memory_info := None; info_io_counters := None;
                   info_create_time := 40 |} |}.

Definition denied_oracle (p : probe) : nat -> answer p :=
  match p return nat -> answer p with
  | psutil_process_iter => fun _ =>
      [ sample_process 1 "init" 0 1536; denied_process; sample_process 7 "spm" 3 4096 ]
  | p' => sample_oracle p'
  end.

Definition denied_world : world :=
  {| oracle := denied_oracle; cursor := fun _ => O; slept := 0;
     files := ∅; screen := [] |}.

(** A host like the sample one on which the second process of the table
    has no name to show. *)
Definition nameless_process : process :=
  {| info := Ok {| info_pid := 9; info_name := None; info_cpu_percent := 1;
                   info_memory_info := Some {| rss := 2048; vms := 4096 |};
                   info_io_counters := None; info_create_time := 40 |} |}.

Definition nameless_oracle (p : probe) : nat -> answer p :=
  match p return nat -> answer p with
  | psutil_process_iter => fun _ =>
      [ sample_process 1 "init" 0 1536; nameless_process; sample_process 7 "spm" 3 4096 ]
  | p' => sample_oracle p'
  end.

Definition nameless_world : world :=
  {| oracle := nameless_oracle; cursor := fun _ => O; slept := 0;
     files := ∅; screen := [] |}.

(** The rows of the log file, none when the file does not exist. *)
Definition log_rows (cfg : config) (w : world) : list csv_row :=
  default [] (files w !! LOG_FILE cfg).

(** The configuration of the source with three ranks instead of five. *)
Definition narrow_config : config :=
  {| LOG_FILE := "system_performance_log.csv";
     LOG_INTERVAL_SECONDS := 3;
     TOP_N_PROCESSES := 3 |}.

(** * Properties *)

(** ** Decimal numerals and column names *)

Lemma string_of_uint_no_underscore (d : Decimal.uint) :
  no_underscore (NilEmpty.string_of_uint d).
Proof.
  induction d; simpl; try (split; [discriminate | assumption]); exact I.
Qed.

Lemma to_lu_not_nil (n : nat) : Unsigned.to_lu n <> Decimal.Nil.
Proof.
  induction n as [|n IH].
  - discriminate.
  - rewrite Unsigned.to_lu_succ.
    destruct (Unsigned.to_lu n); simpl; discriminate.
Qed.

Lemma to_uint_not_nil (n : nat) : Nat.to_uint n <> Decimal.Nil.
Proof.
  rewrite Unsigned.to_uint_alt. intros H.
  apply DecimalFacts.rev_nil_inv in H. exact (to_lu_not_nil n H).
Qed.

Lemma str_nat_no_underscore (n : nat) : no_underscore (str_nat n).
Proof.
  unfold str_nat, NilZero.string_of_uint.
  pose proof (string_of_uint_no_underscore (Nat.to_uint n)) as H.
  destruct (Nat.to_uint n) eqn:E; try exact H.
  exfalso. exact (to_uint_not_nil n E).
Qed.

Lemma str_nat_inj (i j : nat) : str_nat i = str_nat j -> i = j.
Proof.
  unfold str_nat. intros H.
  apply Unsigned.to_uint_inj.
  pose proof (NilZero.usu _ (to_uint_not_nil i)) as Hi.
  pose proof (NilZero.usu _ (to_uint_not_nil j)) as Hj.
  rewrite H in Hi. rewrite Hi in Hj. congruence.
Qed.

(** String concatenation unfolds on a known head. *)
Local Arguments String.append !_ _ / : simpl nomatch.

(** A numeral followed by an underscore can be read back in one way. *)
Lemma numeral_split (a b x y : string) :
  no_underscore a -> no_underscore b ->
  a +:+ "_" +:+ x = b +:+ "_" +:+ y -> a = b /\ x = y.
Proof.
  revert b. induction a as [|c a IH]; intros [|c' b] Ha Hb H; simpl in *.
  - injection H as ->. auto.
  - injection H as Hc _. destruct Hb as [Hb _]. congruence.
  - injection H as Hc _. destruct Ha as [Ha _]. congruence.
  - injection H as -> H. destruct Ha as [_ Ha], Hb as [_ Hb].
    destruct (IH b Ha Hb H) as [-> ->]. auto.
Qed.

Lemma process_columns_fields (category : string) (i : nat) :
  process_columns category i = map (column category i) fields.
Proof. reflexivity. Qed.

(** Within the three categories the column name determines the
    category, the rank and the field. *)
Lemma column_inj (c c' : string) (i i' : nat) (f f' : string) :
  In c categories -> In c' categories ->
  column c i f = column c' i' f' -> c = c' /\ i = i' /\ f = f'.
Proof.
  unfold column, categories. simpl.
  intros Hc Hc' H.
  assert (Hsplit : str_nat i +:+ "_" +:+ f = str_nat i' +:+ "_" +:+ f' -> i = i' /\ f = f').
  { intros E. apply numeral_split in E; auto using str_nat_no_underscore.
    destruct E as [E ->]. apply str_nat_inj in E. auto. }
  destruct Hc as [<-|[<-|[<-|[]]]], Hc' as [<-|[<-|[<-|[]]]];
    simpl in H; first [discriminate H | injection H as H; auto].
Qed.

Lemma column_not_system (c : string) (i : nat) (f : string) :
  ~ In (column c i f) system_columns.
Proof.
  unfold column, system_columns. simpl.
  intros H. repeat (destruct H as [H|H]; [discriminate H|]). exact H.
Qed.

(** ** Lists built by nested loops *)

Lemma fold_left_extend {A B} (f : A -> list B) (l : list A) (init : list B) :
  fold_left (fun acc x => (acc ++ f x)%list) l init = (init ++ flat_map f l)%list.
Proof.
  revert init. induction l as [|x l IH]; intros init; simpl.
  - now rewrite app_nil_r.
  - rewrite IH. now rewrite <- app_assoc.
Qed.

Lemma elem_of_flat_map {A B} (f : A -> list B) (l : list A) (y : B) :
  y ∈ flat_map f l <-> exists x, x ∈ l /\ y ∈ f x.
Proof.
  rewrite list_elem_of_In, in_flat_map.
  split; intros (x & Hx & Hy); exists x; split;
    try (now apply list_elem_of_In); now apply list_elem_of_In.
Qed.

Lemma NoDup_flat_map {A B} (f : A -> list B) (l : list A) :
  NoDup l ->
  (forall x, x ∈ l -> NoDup (f x)) ->
  (forall x x' y, x ∈ l -> x' ∈ l -> y ∈ f x -> y ∈ f x' -> x = x') ->
  NoDup (flat_map f l).
Proof.
  induction l as [|a l IH]; intros Hl Hf Hdisj; simpl.
  - constructor.
  - apply NoDup_cons in Hl as [Ha Hl].
    apply NoDup_app. split; [apply Hf; left|]. split.
    + intros y Hy Hy'. apply elem_of_flat_map in Hy' as (x & Hx & Hy').
      assert (a = x) as -> by (apply (Hdisj a x y); [left|right| |]; auto).
      contradiction.
    + apply IH; auto.
      * intros x Hx. apply Hf. now right.
      * intros x x' y Hx Hx'. apply Hdisj; now right.
Qed.

Lemma flat_map_shift {B} (f : nat -> list B) (n : nat) :
  flat_map (fun i => f (i + 1)) (seq 0 n) = flat_map f (seq 1 n).
Proof.
  rewrite <- seq_shift, flat_map_concat_map, flat_map_concat_map, map_map.
  f_equal. apply map_ext. intros i. now rewrite Nat.add_1_r.
Qed.

(** ** Dictionaries *)

Lemma dict_set_fresh {V} (d : dict V) (k : string) (v : V) :
  k ∉ dict_keys d -> dict_set d k v = (d ++ [(k, v)])%list.
Proof.
  induction d as [|[k' v'] d IH]; simpl; intros Hk; [reflexivity|].
  apply not_elem_of_cons in Hk as [Hne Hk].
  destruct (String.eqb_spec k' k) as [->|_]; [contradiction|].
  now rewrite IH.
Qed.

Lemma dict_update_fresh {V} (d : dict V) (items : list (string * V)) :
  NoDup (dict_keys d ++ map fst items) -> dict_update d items = (d ++ items)%list.
Proof.
  unfold dict_update. revert d.
  induction items as [|[k v] items IH]; intros d Hnd; simpl.
  - now rewrite app_nil_r.
  - simpl in Hnd.
    assert (Hk : k ∉ dict_keys d).
    { apply NoDup_app in Hnd as (_ & Hd & _). intros Hin.
      apply (Hd k Hin). left. }
    rewrite dict_set_fresh by exact Hk.
    rewrite IH.
    + now rewrite <- app_assoc.
    + unfold dict_keys in *. rewrite map_app. simpl.
      now rewrite <- app_assoc.
Qed.

Lemma dict_update_app {V} (d : dict V) (a b : list (string * V)) :
  dict_update d (a ++ b) = dict_update (dict_update d a) b.
Proof. apply fold_left_app. Qed.

Lemma fold_left_dict_update {A V} (g : A -> list (string * V)) (l : list A) (d : dict V) :
  fold_left (fun d x => dict_update d (g x)) l d = dict_update d (flat_map g l).
Proof.
  revert d. induction l as [|x l IH]; intros d; simpl; [reflexivity|].
  now rewrite IH, dict_update_app.
Qed.

Lemma dict_get_elem {V} (d : dict V) (k : string) (v : V) :
  NoDup (dict_keys d) -> (k, v) ∈ d -> dict_get d k = Some v.
Proof.
  induction d as [|[k' v'] d IH]; simpl; intros Hnd Hin.
  - inversion Hin.
  - apply NoDup_cons in Hnd as [Hk' Hnd].
    apply elem_of_cons in Hin as [Heq|Hin].
    + injection Heq as -> ->. now rewrite String.eqb_refl.
    + destruct (String.eqb_spec k' k) as [->|_].
      * exfalso. apply Hk'. unfold dict_keys.
        apply list_elem_of_In, in_map_iff. exists (k, v). split; [reflexivity|].
        now apply list_elem_of_In.
      * now apply IH.
Qed.

(** ** The header and the row have the same columns *)

Lemma header_columns (cfg : config) :
  header cfg = (system_columns ++ top_columns (TOP_N_PROCESSES cfg))%list.
Proof.
  unfold header, top_columns, categories. cbn [fold_left flat_map].
  rewrite !fold_left_extend, app_nil_r, <- !app_assoc. reflexivity.
Qed.

Lemma NoDup_system_columns : NoDup system_columns.
Proof. apply (bool_decide_unpack _). vm_compute. reflexivity. Qed.

Lemma NoDup_fields : NoDup fields.
Proof. apply (bool_decide_unpack _). vm_compute. reflexivity. Qed.

Lemma NoDup_categories : NoDup categories.
Proof. apply (bool_decide_unpack _). vm_compute. reflexivity. Qed.

Lemma elem_of_process_columns (category : string) (i : nat) (y : string) :
  y ∈ process_columns category i <-> exists f, f ∈ fields /\ y = column category i f.
Proof.
  rewrite process_columns_fields, list_elem_of_In, in_map_iff.
  split; intros (f & H1 & H2); exists f.
  - split; [now apply list_elem_of_In | auto].
  - split; [auto | now apply list_elem_of_In].
Qed.

Lemma NoDup_top_columns (n : nat) : NoDup (top_columns n).
Proof.
  unfold top_columns. apply NoDup_flat_map.
  - exact NoDup_categories.
  - intros c Hc. apply NoDup_flat_map.
    + apply NoDup_seq.
    + intros i _. rewrite process_columns_fields.
      apply (NoDup_fmap_2_strong (column c i)); [|exact NoDup_fields].
      intros f f' _ _ E. apply list_elem_of_In in Hc.
      now destruct (column_inj c c i i f f' Hc Hc E) as (_ & _ & ->).
    + intros i i' y _ _ Hy Hy'.
      apply elem_of_process_columns in Hy as (f & _ & ->).
      apply elem_of_process_columns in Hy' as (f' & _ & E).
      apply list_elem_of_In in Hc.
      now destruct (column_inj c c i i' f f' Hc Hc E) as (_ & -> & _).
  - intros c c' y Hc Hc' Hy Hy'.
    apply elem_of_flat_map in Hy as (i & _ & Hy).
    apply elem_of_flat_map in Hy' as (i' & _ & Hy').
    apply elem_of_process_columns in Hy as (f & _ & ->).
    apply elem_of_process_columns in Hy' as (f' & _ & E).
    apply list_elem_of_In in Hc, Hc'.
    now destruct (column_inj c c' i i' f f' Hc Hc' E) as (-> & _ & _).
Qed.

Lemma NoDup_header (cfg : config) : NoDup (header cfg).
Proof.
  rewrite header_columns. apply NoDup_app.
  split; [exact NoDup_system_columns|]. split; [|apply NoDup_top_columns].
  intros y Hsys Htop. unfold top_columns in Htop.
  apply elem_of_flat_map in Htop as (c & _ & Htop).
  apply elem_of_flat_map in Htop as (i & _ & Htop).
  apply elem_of_process_columns in Htop as (f & _ & ->).
  apply list_elem_of_In in Hsys. exact (column_not_system c i f Hsys).
Qed.

Lemma flatten_items (cfg : config) (tops : list (string * list snapshot))
    (log_data : dict pyval) :
  flatten cfg tops log_data = dict_update log_data (slot_list (TOP_N_PROCESSES cfg) tops).
Proof.
  unfold flatten, slot_list. revert log_data.
  induction tops as [|[category data] tops IH]; intros log_data;
    cbn [fold_left flat_map fst snd]; [reflexivity|].
  now rewrite IH, fold_left_dict_update, dict_update_app.
Qed.

Lemma map_flat_map {A B C} (f : B -> C) (g : A -> list B) (l : list A) :
  map f (flat_map g l) = flat_map (fun x => map f (g x)) l.
Proof.
  induction l as [|x l IH]; simpl; [reflexivity|].
  now rewrite map_app, IH.
Qed.

Lemma slot_list_keys (cfg : config) (all_procs : list snapshot) :
  map fst (slot_list (TOP_N_PROCESSES cfg) (selections cfg all_procs))
  = top_columns (TOP_N_PROCESSES cfg).
Proof.
  unfold slot_list, selections, top_columns, categories.
  cbn [flat_map fst snd]. rewrite !app_nil_r, !map_app, !map_flat_map.
  rewrite <- !flat_map_shift. reflexivity.
Qed.

(** When the system part carries the system columns, no assignment of
    the row overwrites another: the row is the list of assignments. *)
Lemma build_log_data_items (cfg : config) (sys : list (string * pyval))
    (all_procs : list snapshot) :
  map fst sys = system_columns ->
  build_log_data cfg sys all_procs
  = (sys ++ slot_list (TOP_N_PROCESSES cfg) (selections cfg all_procs))%list.
Proof.
  intros Hsys. unfold build_log_data.
  rewrite flatten_items, <- dict_update_app.
  rewrite dict_update_fresh; [reflexivity|]. cbn [dict_keys map app].
  rewrite map_app, Hsys, slot_list_keys, <- header_columns.
  apply NoDup_header.
Qed.

Lemma build_log_data_keys (cfg : config) (sys : list (string * pyval))
    (all_procs : list snapshot) :
  map fst sys = system_columns ->
  dict_keys (build_log_data cfg sys all_procs) = header cfg.
Proof.
  intros Hsys. rewrite build_log_data_items by exact Hsys.
  unfold dict_keys. now rewrite map_app, Hsys, slot_list_keys, header_columns.
Qed.

(** ** Running the effects *)

Lemma run_ask {B} (p : probe) (k : answer p -> io B) (w : world) :
  io_bind (ask p) k w = k (oracle w p (cursor w p)) (advance p w).
Proof. reflexivity. Qed.

Lemma run_sleep {B} (s : Z) (k : unit -> io B) (w : world) :
  io_bind (sleep s) k w = k tt (set_slept (slept w + s)%Z w).
Proof. reflexivity. Qed.

Lemma run_print {B} (line : string) (k : unit -> io B) (w : world) :
  io_bind (print line) k w = k tt (set_screen (screen w ++ [line])%list w).
Proof. reflexivity. Qed.

Lemma run_print_nl {B} (line : string) (k : unit -> io B) (w : world) :
  io_bind (print_nl line) k w = k tt (set_screen (screen w ++ [""; line])%list w).
Proof.
  unfold print_nl, io_bind, print. cbn [screen set_screen].
  now rewrite <- app_assoc.
Qed.

Lemma run_clear_screen {B} (k : unit -> io B) (w : world) :
  io_bind clear_screen k w = k tt (set_screen [] w).
Proof. reflexivity. Qed.

Lemma run_lift {A B} (r : result A) (k : A -> io B) (w : world) :
  io_bind (io_lift r) k w
  = match r with Ok a => k a w | Raise e => (Raise e, w) end.
Proof. unfold io_bind, io_lift. now destruct r. Qed.

Lemma run_log_to_csv {B} (cfg : config) (data : dict pyval) (k : unit -> io B)
    (w : world) :
  io_bind (log_to_csv cfg data) k w
  = k tt (set_files
            (<[LOG_FILE cfg :=
                 (default [] (files w !! LOG_FILE cfg) ++ [dict_values data])%list]>
               (files w)) w).
Proof. reflexivity. Qed.

Lemma run_get_io_rates {B} (k : Z * Z * Q * Q -> io B) (w : world) :
  let last_disk := oracle w psutil_disk_io_counters (cursor w psutil_disk_io_counters) in
  let last_net := oracle w psutil_net_io_counters (cursor w psutil_net_io_counters) in
  let new_disk := oracle w psutil_disk_io_counters (S (cursor w psutil_disk_io_counters)) in
  let new_net := oracle w psutil_net_io_counters (S (cursor w psutil_net_io_counters)) in
  io_bind get_io_rates k w
  = k ((read_bytes new_disk - read_bytes last_disk)%Z,
       (write_bytes new_disk - write_bytes last_disk)%Z,
       (inject_Z ((bytes_sent new_net - bytes_sent last_net) * 8) / 1000000)%Q,
       (inject_Z ((bytes_recv new_net - bytes_recv last_net) * 8) / 1000000)%Q)
      (advance psutil_net_io_counters
         (advance psutil_disk_io_counters
            (set_slept (slept w + 1)%Z
               (advance psutil_net_io_counters
                  (advance psutil_disk_io_counters w))))).
Proof. reflexivity. Qed.

Lemma run_get_all_processes_info {B} (k : list snapshot -> io B) (w : world) :
  io_bind get_all_processes_info k w
  = let w' := advance psutil_process_iter (advance time_time w) in
    match enumerate (oracle w time_time (cursor w time_time))
            (oracle w psutil_process_iter (cursor w psutil_process_iter)) [] with
    | Ok all_procs => k all_procs w'
    | Raise e => (Raise e, w')
    end.
Proof.
  unfold get_all_processes_info, io_bind, ask, io_lift.
  cbn [oracle cursor advance].
  now destruct (enumerate _ _ _).
Qed.

(** What the world transformers leave alone. *)
Lemma files_advance p w : files (advance p w) = files w.
Proof. reflexivity. Qed.
Lemma files_set_slept s w : files (set_slept s w) = files w.
Proof. reflexivity. Qed.
Lemma files_set_screen l w : files (set_screen l w) = files w.
Proof. reflexivity. Qed.
Lemma files_set_files fs w : files (set_files fs w) = fs.
Proof. reflexivity. Qed.
Lemma screen_advance p w : screen (advance p w) = screen w.
Proof. reflexivity. Qed.
Lemma screen_set_slept s w : screen (set_slept s w) = screen w.
Proof. reflexivity. Qed.
Lemma screen_set_screen l w : screen (set_screen l w) = l.
Proof. reflexivity. Qed.
Lemma screen_set_files fs w : screen (set_files fs w) = screen w.
Proof. reflexivity. Qed.

Create Rewrite HintDb world.
Hint Rewrite files_advance files_set_slept files_set_screen files_set_files
  screen_advance screen_set_slept screen_set_screen screen_set_files : world.

Lemma set_screen_set_screen l l' w : set_screen l (set_screen l' w) = set_screen l w.
Proof. reflexivity. Qed.
Lemma advance_set_screen p l w : advance p (set_screen l w) = set_screen l (advance p w).
Proof. reflexivity. Qed.
Hint Rewrite set_screen_set_screen advance_set_screen : world.

Lemma oracle_advance p w : oracle (advance p w) = oracle w.
Proof. reflexivity. Qed.
Lemma oracle_set_slept s w : oracle (set_slept s w) = oracle w.
Proof. reflexivity. Qed.
Lemma oracle_set_files fs w : oracle (set_files fs w) = oracle w.
Proof. reflexivity. Qed.
Lemma oracle_set_screen l w : oracle (set_screen l w) = oracle w.
Proof. reflexivity. Qed.
Lemma cursor_set_slept s w : cursor (set_slept s w) = cursor w.
Proof. reflexivity. Qed.
Lemma cursor_set_files fs w : cursor (set_files fs w) = cursor w.
Proof. reflexivity. Qed.
Lemma cursor_set_screen l w : cursor (set_screen l w) = cursor w.
Proof. reflexivity. Qed.
Lemma cursor_advance_same p w : cursor (advance p w) p = S (cursor w p).
Proof. unfold advance. cbn [cursor]. now destruct (decide (p = p)). Qed.
Lemma cursor_advance_other p q w : q <> p -> cursor (advance p w) q = cursor w q.
Proof. intros H. unfold advance. cbn [cursor]. now destruct (decide (q = p)). Qed.
Hint Rewrite oracle_advance oracle_set_slept oracle_set_files oracle_set_screen
  cursor_set_slept cursor_set_files cursor_set_screen cursor_advance_same : world.
Hint Rewrite cursor_advance_other using discriminate : world.

Lemma slept_advance p w : slept (advance p w) = slept w.
Proof. reflexivity. Qed.
Lemma slept_set_slept s w : slept (set_slept s w) = s.
Proof. reflexivity. Qed.
Lemma slept_set_files fs w : slept (set_files fs w) = slept w.
Proof. reflexivity. Qed.
Lemma slept_set_screen l w : slept (set_screen l w) = slept w.
Proof. reflexivity. Qed.
Hint Rewrite slept_advance slept_set_slept slept_set_files slept_set_screen : world.

Lemma set_screen_same w : set_screen (screen w) w = w.
Proof. now destruct w. Qed.

Arguments advance : simpl never.
Arguments set_slept : simpl never.
Arguments set_files : simpl never.
Arguments set_screen : simpl never.

(** The loop over the ranked tasks prints their lines up to the first
    one that cannot be formatted, where it raises. *)
Lemma print_tasks_outcome (line : snapshot -> result string) (tasks : list snapshot)
    (w : world) :
  exists r printed,
    print_tasks line tasks w = (r, set_screen (screen w ++ printed)%list w) /\
    match r with
    | Ok _ => map line tasks = map Ok printed
    | Raise e => exists p, p ∈ tasks /\ line p = Raise e
    end.
Proof.
  revert w. induction tasks as [|p rest IH]; intros w; cbn [print_tasks].
  - exists (Ok tt), []. split; [|reflexivity].
    unfold io_ret. now rewrite app_nil_r, set_screen_same.
  - rewrite run_lift. destruct (line p) as [text|e] eqn:E.
    + rewrite run_print.
      destruct (IH (set_screen (screen w ++ [text])%list w)) as (r & printed & Hrun & Hr).
      exists r, (text :: printed). split.
      * rewrite Hrun. autorewrite with world. now rewrite <- app_assoc.
      * destruct r as [[]|e].
        -- cbn [map]. now rewrite E, Hr.
        -- destruct Hr as (p' & Hp' & Hl). exists p'.
           split; [apply elem_of_cons; now right | exact Hl].
    + exists (Raise e), []. split.
      * now rewrite app_nil_r, set_screen_same.
      * exists p. split; [apply elem_of_cons; now left | exact E].
Qed.

(** The exceptions a console line can raise. *)
Lemma get_size_raises (n : Z) (suffix : string) (e : exn) :
  get_size n suffix = Raise e -> e = OverflowError.
Proof.
  unfold get_size. generalize (Int n) as b. generalize units as us.
  induction us as [|unit us IH]; intros b; cbn [get_size_loop].
  - destruct b as [m|x]; cbn [format_2f result_bind]; [|discriminate].
    unfold float_of_int. destruct (overflows _); cbn [result_bind]; congruence.
  - destruct (lt_factor b).
    + destruct b as [m|x]; cbn [format_2f result_bind]; [|discriminate].
      unfold float_of_int. destruct (overflows _); cbn [result_bind]; congruence.
    + destruct b as [m|x]; cbn [div_factor result_bind]; [|apply IH].
      unfold int_div_factor. destruct (overflows _); cbn [result_bind];
        [congruence | apply IH].
Qed.

Lemma task_prefix_raises (p : snapshot) (e : exn) :
  task_prefix p = Raise e -> e = TypeError /\ name p = None.
Proof.
  unfold task_prefix, format_name. destruct (name p); cbn [result_bind];
    [discriminate|]. intros H. now injection H as <-.
Qed.

Lemma cpu_task_line_raises (p : snapshot) (e : exn) :
  cpu_task_line p = Raise e -> e = TypeError /\ name p = None.
Proof.
  unfold cpu_task_line. destruct (task_prefix p) as [prefix|e'] eqn:E;
    cbn [result_bind]; [discriminate|].
  intros H. injection H as <-. now apply task_prefix_raises.
Qed.

Lemma cpu_task_line_nameless (p : snapshot) :
  name p = None -> cpu_task_line p = Raise TypeError.
Proof. intros H. unfold cpu_task_line, task_prefix. now rewrite H. Qed.

Lemma mem_task_line_raises (p : snapshot) (e : exn) :
  mem_task_line p = Raise e -> e = TypeError \/ e = OverflowError.
Proof.
  unfold mem_task_line. destruct (task_prefix p) as [prefix|e'] eqn:E;
    cbn [result_bind].
  - destruct (get_size _ _) as [size|e'] eqn:Es; cbn [result_bind]; [discriminate|].
    intros H. injection H as <-. right. now apply get_size_raises in Es.
  - intros H. injection H as <-. left. now apply task_prefix_raises in E.
Qed.

Lemma disk_task_line_raises (p : snapshot) (e : exn) :
  disk_task_line p = Raise e -> e = TypeError \/ e = OverflowError.
Proof.
  unfold disk_task_line. destruct (task_prefix p) as [prefix|e'] eqn:E;
    cbn [result_bind].
  - destruct (get_size _ _) as [size|e'] eqn:Es; cbn [result_bind]; [discriminate|].
    intros H. injection H as <-. right. now apply get_size_raises in Es.
  - intros H. injection H as <-. left. now apply task_prefix_raises in E.
Qed.

Lemma run_setup_csv {B} (cfg : config) (k : unit -> io B) (w : world) :
  io_bind (setup_csv cfg) k w
  = k tt (match files w !! LOG_FILE cfg with
          | None => set_files (<[LOG_FILE cfg := [map PyStr (header cfg)]]> (files w)) w
          | Some _ => w
          end).
Proof. unfold io_bind, setup_csv. now destruct (files w !! LOG_FILE cfg). Qed.

Lemma print_nl_run (line : string) (w : world) :
  print_nl line w = (Ok tt, set_screen (screen w ++ [""; line])%list w).
Proof.
  unfold print_nl, io_bind, print. autorewrite with world.
  now rewrite <- app_assoc.
Qed.

(** ** One cycle, step by step *)

Section CycleFacts.

Variable str_float : Q -> string.
Variable strftime_minutes : Q -> string.
Variable cfg : config.

(** The display clears the console, asks for the boot time once more
    and prints; it touches nothing else.  When it goes through, the
    console shows the three listings between the fixed lines; when a
    line cannot be formatted it stops there with a TypeError (a process
    without a name) or an OverflowError (a size beyond the doubles). *)
Lemma display_outcome (timestamp : string) (cpu_total : Q) (cpu_per_core : list Q)
    (cpu_temp : pyval) (mem : svmem) (usage : sdiskusage)
    (disk_read_s disk_write_s : Z) (mbps_sent mbps_recv : Q)
    (top_cpu top_mem top_disk : list snapshot) (w : world) :
  exists r lines,
    display str_float strftime_minutes cfg timestamp cpu_total cpu_per_core cpu_temp
      mem usage disk_read_s disk_write_s mbps_sent mbps_recv top_cpu top_mem top_disk w
    = (r, set_screen lines (advance psutil_boot_time w)) /\
    (exists rest,
        lines = ("--- System Performance Monitor --- (Logging to " +:+ LOG_FILE cfg +:+ ")")
                  :: rest) /\
    match r with
    | Ok _ => listing_shown top_cpu top_mem top_disk lines
    | Raise e =>
        (e = TypeError \/ e = OverflowError) /\
        ((exists p, p ∈ top_cpu /\ cpu_task_line p = Raise e) \/
         (exists cpu_listing, map cpu_task_line top_cpu = map Ok cpu_listing))
    end.
Proof.
  unfold display.
  rewrite run_clear_screen, run_print, run_ask, run_print, run_print_nl, run_print.
  autorewrite with world.
  (* the CPU listing *)
  match goal with
  | |- context [io_bind (print_tasks cpu_task_line top_cpu) _ ?w0] =>
      destruct (print_tasks_outcome cpu_task_line top_cpu w0) as (r1 & l1 & H1 & Hr1)
  end.
  unfold io_bind at 1. rewrite H1. autorewrite with world.
  destruct r1 as [[]|e].
  2:{ eexists (Raise e), _. split; [reflexivity|]. split; [eexists; cbn [app]; reflexivity|].
      destruct Hr1 as (p & Hp & Hl). split; [|left; now exists p].
      left. now apply cpu_task_line_raises in Hl. }
  (* the memory line *)
  rewrite run_lift. destruct (get_size (vm_used mem) "B") as [used|e] eqn:Eused.
  2:{ eexists (Raise e), _. split; [reflexivity|]. split; [eexists; cbn [app]; reflexivity|].
      split; [right; now apply get_size_raises in Eused | right; now exists l1]. }
  rewrite run_lift. destruct (get_size (vm_total mem) "B") as [total|e] eqn:Etotal.
  2:{ eexists (Raise e), _. split; [reflexivity|]. split; [eexists; cbn [app]; reflexivity|].
      split; [right; now apply get_size_raises in Etotal | right; now exists l1]. }
  rewrite run_print_nl, run_print. autorewrite with world.
  (* the memory listing *)
  match goal with
  | |- context [io_bind (print_tasks mem_task_line top_mem) _ ?w0] =>
      destruct (print_tasks_outcome mem_task_line top_mem w0) as (r2 & l2 & H2 & Hr2)
  end.
  unfold io_bind at 1. rewrite H2. autorewrite with world.
  destruct r2 as [[]|e].
  2:{ eexists (Raise e), _. split; [reflexivity|]. split; [eexists; cbn [app]; reflexivity|].
      destruct Hr2 as (p & Hp & Hl).
      split; [now apply mem_task_line_raises in Hl | right; now exists l1]. }
  (* the disk line *)
  rewrite run_lift. destruct (get_size disk_read_s "B") as [read|e] eqn:Eread.
  2:{ eexists (Raise e), _. split; [reflexivity|]. split; [eexists; cbn [app]; reflexivity|].
      split; [right; now apply get_size_raises in Eread | right; now exists l1]. }
  rewrite run_lift. destruct (get_size disk_write_s "B") as [write|e] eqn:Ewrite.
  2:{ eexists (Raise e), _. split; [reflexivity|]. split; [eexists; cbn [app]; reflexivity|].
      split; [right; now apply get_size_raises in Ewrite | right; now exists l1]. }
  rewrite run_print_nl, run_print. autorewrite with world.
  (* the disk listing *)
  match goal with
  | |- context [io_bind (print_tasks disk_task_line top_disk) _ ?w0] =>
      destruct (print_tasks_outcome disk_task_line top_disk w0) as (r3 & l3 & H3 & Hr3)
  end.
  unfold io_bind at 1. rewrite H3. autorewrite with world.
  destruct r3 as [[]|e].
  2:{ eexists (Raise e), _. split; [reflexivity|]. split; [eexists; cbn [app]; reflexivity|].
      destruct Hr3 as (p & Hp & Hl).
      split; [now apply disk_task_line_raises in Hl | right; now exists l1]. }
  (* the network line *)
  rewrite print_nl_run. autorewrite with world.
  eexists (Ok tt), _. split; [reflexivity|]. split; [eexists; cbn [app]; reflexivity|].
  eexists [_; _; _; _], l1, [_; _], l2, [_; _], l3, [_; _].
  split; [|auto 10].
  cbn [app]. rewrite <- !app_assoc. cbn [app]. reflexivity.
Qed.

Lemma system_items_keys timestamp cpu_total cpu_per_core mem usage disk_read_s
    disk_write_s mbps_sent mbps_recv uptime cpu_temp :
  map fst (system_items str_float timestamp cpu_total cpu_per_core mem usage
             disk_read_s disk_write_s mbps_sent mbps_recv uptime cpu_temp)
  = system_columns.
Proof. reflexivity. Qed.

(** One cycle, with the readings named after the variables of the
    source.  It fails without a trace when the temperature reading or
    the enumeration raises; otherwise it appends its row to the log and
    then displays, and only a display that goes through is followed by
    the final sleep. *)
Lemma cycle_outcome (w : world) :
  let at0 (p : probe) := oracle w p (cursor w p) in
  let at1 (p : probe) := oracle w p (S (cursor w p)) in
  let disk_read_s :=
    (read_bytes (at1 psutil_disk_io_counters) - read_bytes (at0 psutil_disk_io_counters))%Z in
  let disk_write_s :=
    (write_bytes (at1 psutil_disk_io_counters) - write_bytes (at0 psutil_disk_io_counters))%Z in
  let mbps_sent :=
    (inject_Z ((bytes_sent (at1 psutil_net_io_counters)
                - bytes_sent (at0 psutil_net_io_counters)) * 8) / 1000000)%Q in
  let mbps_recv :=
    (inject_Z ((bytes_recv (at1 psutil_net_io_counters)
                - bytes_recv (at0 psutil_net_io_counters)) * 8) / 1000000)%Q in
  let uptime := (at0 time_time - at0 psutil_boot_time)%Q in
  let sys cpu_temp :=
    system_items str_float (at0 datetime_now) (at0 psutil_cpu_percent)
      (at0 psutil_cpu_percent_percpu) (at0 psutil_virtual_memory) (at0 psutil_disk_usage)
      disk_read_s disk_write_s mbps_sent mbps_recv uptime cpu_temp in
  match read_temperature (at0 psutil_sensors_temperatures) with
  | Raise e =>
      exists w', cycle str_float strftime_minutes cfg w = (Raise e, w') /\
        files w' = files w /\ screen w' = screen w
  | Ok cpu_temp =>
      match enumerate (at1 time_time) (at0 psutil_process_iter) [] with
      | Raise e =>
          exists w', cycle str_float strftime_minutes cfg w = (Raise e, w') /\
            files w' = files w /\ screen w' = screen w
      | Ok all_procs =>
          let row := build_log_data cfg (sys cpu_temp) all_procs in
          let top_cpu := top_by (TOP_N_PROCESSES cfg) key_cpu all_procs in
          let top_mem := top_by (TOP_N_PROCESSES cfg) key_mem all_procs in
          let top_disk := top_by (TOP_N_PROCESSES cfg) key_disk all_procs in
          exists r w',
            cycle str_float strftime_minutes cfg w = (r, w') /\
            (files w'
             = <[LOG_FILE cfg :=
                   (default [] (files w !! LOG_FILE cfg) ++ [dict_values row])%list]>
                 (files w)) /\
            oracle w' = oracle w /\
            (exists rest,
                screen w'
                = ("--- System Performance Monitor --- (Logging to "
                   +:+ LOG_FILE cfg +:+ ")") :: rest) /\
            match r with
            | Ok row' =>
                row' = row /\
                slept w' = (slept w + 1 + Z.max 0 (LOG_INTERVAL_SECONDS cfg - 1))%Z /\
                listing_shown top_cpu top_mem top_disk (screen w')
            | Raise e =>
                slept w' = (slept w + 1)%Z /\
                (e = TypeError \/ e = OverflowError) /\
                ((exists p, p ∈ top_cpu /\ cpu_task_line p = Raise e) \/
                 (exists cpu_listing, map cpu_task_line top_cpu = map Ok cpu_listing))
            end
      end
  end.
Proof.
  cbv zeta. unfold cycle. rewrite run_get_io_rates. cbv beta iota zeta.
  rewrite !run_ask, run_lift. autorewrite with world.
  destruct (read_temperature _) as [cpu_temp|e].
  2:{ eexists. split; [reflexivity|]. autorewrite with world. split; reflexivity. }
  rewrite run_ask, run_get_all_processes_info. cbv zeta. autorewrite with world.
  destruct (enumerate _ _ _) as [all_procs|e].
  2:{ eexists. split; [reflexivity|]. autorewrite with world. split; reflexivity. }
  rewrite run_log_to_csv.
  match goal with
  | |- context [io_bind (display _ _ _ ?ts ?ct ?pc ?tmp ?m ?u ?dr ?dw ?ms ?mr ?t1 ?t2 ?t3) _ ?w0] =>
      destruct (display_outcome ts ct pc tmp m u dr dw ms mr t1 t2 t3 w0)
        as (r & lines & Hrun & Hfirst & Hr)
  end.
  unfold io_bind at 1. rewrite Hrun. destruct r as [[]|e].
  - rewrite run_sleep. unfold io_ret.
    eexists (Ok _), _. split; [reflexivity|]. autorewrite with world.
    split; [reflexivity|]. split; [reflexivity|]. split; [exact Hfirst|].
    split; [reflexivity|]. split; [lia | exact Hr].
  - eexists (Raise e), _. split; [reflexivity|]. autorewrite with world.
    split; [reflexivity|]. split; [reflexivity|]. split; [exact Hfirst|].
    split; [reflexivity | exact Hr].
Qed.

(** A cycle that completes has logged the row built from a system part
    with the system columns and from the enumerated processes, has
    appended that row to the log file, and shows the ranked tasks. *)
Lemma cycle_inv (w w' : world) (row : dict pyval) :
  cycle str_float strftime_minutes cfg w = (Ok row, w') ->
  exists sys all_procs,
    map fst sys = system_columns /\
    enumerate (oracle w time_time (S (cursor w time_time)))
      (oracle w psutil_process_iter (cursor w psutil_process_iter)) [] = Ok all_procs /\
    row = build_log_data cfg sys all_procs /\
    (files w'
     = <[LOG_FILE cfg :=
           (default [] (files w !! LOG_FILE cfg) ++ [dict_values row])%list]> (files w)) /\
    slept w' = (slept w + 1 + Z.max 0 (LOG_INTERVAL_SECONDS cfg - 1))%Z /\
    listing_shown (top_by (TOP_N_PROCESSES cfg) key_cpu all_procs)
      (top_by (TOP_N_PROCESSES cfg) key_mem all_procs)
      (top_by (TOP_N_PROCESSES cfg) key_disk all_procs) (screen w').
Proof.
  intros Hrun. pose proof (cycle_outcome w) as H. cbv zeta in H.
  destruct (read_temperature _) as [cpu_temp|e1].
  2:{ destruct H as (w1 & H & _). rewrite H in Hrun. discriminate Hrun. }
  destruct (enumerate _ _ _) as [all_procs|e2] eqn:Henum.
  2:{ destruct H as (w1 & H & _). rewrite H in Hrun. discriminate Hrun. }
  destruct H as (r & w1 & H & Hfiles & _ & _ & Hr). rewrite H in Hrun.
  injection Hrun as -> ->. destruct Hr as (-> & Hslept & Hshown).
  eexists _, all_procs. split; [apply system_items_keys|].
  split; [reflexivity|]. split; [reflexivity|]. auto.
Qed.

End CycleFacts.

(** ** Human-readable sizes *)

Lemma append_assoc (a b c : string) : (a +:+ b) +:+ c = a +:+ b +:+ c.
Proof. induction a as [|x a IH]; simpl; [reflexivity|]. now rewrite IH. Qed.

Lemma round_half_even_proper : Proper (Qeq ==> eq) round_half_even.
Proof.
  intros x y E. unfold round_half_even.
  rewrite (Qfloor_comp x y E).
  assert (E' : (x - inject_Z (Qfloor y) == y - inject_Z (Qfloor y))%Q)
    by (now rewrite E).
  now rewrite (Qcompare_comp _ _ E' (1 # 2) (1 # 2) (Qeq_refl _)).
Qed.

(** The text depends on the value only, not on how the fraction is written. *)
Lemma fmt2_proper : Proper (Qeq ==> eq) fmt2.
Proof.
  intros x y E. unfold fmt2.
  assert (E' : (Qabs x * 100 == Qabs y * 100)%Q) by (now rewrite E).
  rewrite (round_half_even_proper _ _ E').
  now rewrite (Qleb_comp 0%Q 0%Q (Qeq_refl 0%Q) x y E).
Qed.

Lemma two_digits_length (z : Z) :
  (0 <= z < 100)%Z -> String.length (two_digits z) = 2.
Proof.
  intros Hz.
  assert (H : forallb (fun k => Nat.eqb (String.length (two_digits (Z.of_nat k))) 2)
                (seq 0 100) = true) by (vm_compute; reflexivity).
  rewrite forallb_forall in H.
  specialize (H (Z.to_nat z)). rewrite Z2Nat.id in H by lia.
  apply Nat.eqb_eq, H, in_seq. lia.
Qed.

(** Exactly two decimals follow the dot. *)
Lemma fmt2_two_decimals (x : Q) :
  exists whole decimals,
    fmt2 x = whole +:+ "." +:+ decimals /\ String.length decimals = 2.
Proof.
  unfold fmt2. eexists (_ +:+ _), _. split.
  - now rewrite append_assoc.
  - apply two_digits_length, Z.mod_pos_bound. lia.
Qed.

Lemma scaled_value (d : nat) (b : Q) :
  (scaled d b == b / inject_Z (1024 ^ Z.of_nat d))%Q.
Proof.
  unfold scaled. induction d as [|d IH].
  - change (b == b / 1)%Q. field.
  - rewrite Nat.iter_succ, IH, Nat2Z.inj_succ, Z.pow_succ_r by lia.
    rewrite inject_Z_mult. unfold factor.
    assert (Hnz : ~ (inject_Z (1024 ^ Z.of_nat d) == 0)%Q).
    { change 0%Q with (inject_Z 0). rewrite inject_Z_injective.
      apply Z.pow_nonzero; lia. }
    change (inject_Z 1024) with 1024%Q.
    field. exact Hnz.
Qed.

Lemma round_half_even_between (q : Q) (a b : Z) :
  (inject_Z a <= q)%Q -> (q <= inject_Z b)%Q -> (a <= round_half_even q <= b)%Z.
Proof.
  intros Ha Hb. unfold round_half_even.
  pose proof (Qfloor_le q) as Hf.
  assert (Hfa : (a <= Qfloor q)%Z).
  { rewrite <- (Qfloor_Z a). now apply Qfloor_resp_le. }
  assert (Hfb : (Qfloor q <= b)%Z).
  { rewrite <- (Qfloor_Z b). now apply Qfloor_resp_le. }
  assert (Hup : (1 # 2 <= q - inject_Z (Qfloor q))%Q -> (Qfloor q + 1 <= b)%Z).
  { intros H. assert (Hlt : (inject_Z (Qfloor q) < inject_Z b)%Q) by lra.
    rewrite <- Zlt_Qlt in Hlt. lia. }
  destruct (Qcompare_spec (q - inject_Z (Qfloor q)) (1 # 2)) as [E|E|E].
  - destruct (Z.even _); [lia|]. split; [lia|]. apply Hup. lra.
  - lia.
  - split; [lia|]. apply Hup. lra.
Qed.

Lemma round_half_even_error (q : Q) :
  (Qabs (inject_Z (round_half_even q) - q) <= 1 # 2)%Q.
Proof.
  apply Qabs_Qle_condition. unfold round_half_even.
  pose proof (Qfloor_le q) as Hf. pose proof (Qlt_floor q) as Hf'.
  rewrite inject_Z_plus in Hf'. change (inject_Z 1) with 1%Q in Hf'.
  destruct (Qcompare_spec (q - inject_Z (Qfloor q)) (1 # 2)) as [E|E|E].
  - destruct (Z.even _).
    + lra.
    + rewrite inject_Z_plus. change (inject_Z 1) with 1%Q. lra.
  - lra.
  - rewrite inject_Z_plus. change (inject_Z 1) with 1%Q. lra.
Qed.

Lemma pow2_pos (e : Z) : (0 < 2 ^ e)%Q.
Proof. now apply Qpower_0_lt. Qed.

Lemma pow2_add (a b : Z) : (2 ^ (a + b) == 2 ^ a * 2 ^ b)%Q.
Proof. now apply Qpower_plus. Qed.

Lemma pow2_Z (j : Z) : (0 <= j)%Z -> (inject_Z (2 ^ j) == 2 ^ j)%Q.
Proof. intros H. now rewrite Zpower_Qpower. Qed.

Lemma pow2_le (a b : Z) : (a <= b)%Z -> (2 ^ a <= 2 ^ b)%Q.
Proof. intros H. apply Qpower_le_compat_l; [exact H | lra]. Qed.

(** An argument that already has at most 53 bits is left as it is. *)
Lemma round53_small (x : dyadic) :
  (Z.abs (mantissa x) < 2 ^ 53)%Z -> round53 x = x.
Proof.
  intros H. unfold round53.
  destruct (Z.ltb_spec (Z.log2 (Z.abs (mantissa x))) 53) as [_|Hge]; [reflexivity|].
  exfalso. destruct (Z.eq_dec (Z.abs (mantissa x)) 0%Z) as [E|E].
  - rewrite E in Hge. cbn in Hge. lia.
  - assert (Z.log2 (Z.abs (mantissa x)) < 53)%Z by (apply Z.log2_lt_pow2; lia). lia.
Qed.

(** Rounding a positive number with [L + 1] bits keeps it between
    [2 ^ L] and [2 ^ (L + 1)], scaled by the exponent. *)
Lemma round53_bounds (m e : Z) :
  (0 < m)%Z ->
  let x := round53 {| mantissa := m; exponent := e |} in
  (0 < mantissa x <= 2 ^ 53)%Z /\
  (2 ^ (Z.log2 m + e) <= dyadic_value x)%Q /\
  (dyadic_value x <= 2 ^ (Z.log2 m + e + 1))%Q.
Proof.
  intros Hm x. subst x. unfold round53. cbn [mantissa exponent].
  rewrite (Z.abs_eq m) by lia.
  destruct (Z.log2_spec m Hm) as [Hlo Hhi].
  pose proof (Z.log2_nonneg m) as Hnn.
  destruct (Z.ltb_spec (Z.log2 m) 53) as [Hlt|Hge].
  - unfold dyadic_value. cbn [mantissa exponent].
    assert ((2 ^ Z.succ (Z.log2 m) <= 2 ^ 53)%Z) by (apply Z.pow_le_mono_r; lia).
    split; [lia|].
    pose proof (pow2_pos e) as He.
    rewrite Zle_Qle in Hlo. rewrite Zlt_Qlt in Hhi.
    rewrite pow2_Z in Hlo, Hhi by lia.
    split.
    + rewrite (pow2_add (Z.log2 m) e). apply Qmult_le_compat_r; [exact Hlo | lra].
    + replace (Z.log2 m + e + 1)%Z with (Z.succ (Z.log2 m) + e)%Z by lia.
      rewrite (pow2_add (Z.succ (Z.log2 m)) e). apply Qmult_le_compat_r; [lra | lra].
  - set (k := (Z.log2 m - 52)%Z).
    assert (Hk : (0 < k)%Z) by (unfold k; lia).
    assert (Hpk : (0 < 2 ^ k)%Z) by (apply Z.pow_pos_nonneg; lia).
    assert (Hqk : (0 < inject_Z (2 ^ k))%Q)
      by (change 0%Q with (inject_Z 0); now rewrite <- Zlt_Qlt).
    assert (Hb : (2 ^ 52 <= round_half_even (inject_Z m / inject_Z (2 ^ k)) <= 2 ^ 53)%Z).
    { apply round_half_even_between.
      - apply Qle_shift_div_l; [exact Hqk|].
        rewrite <- inject_Z_mult, <- Zle_Qle, <- Z.pow_add_r by lia.
        replace (52 + k)%Z with (Z.log2 m) by (unfold k; lia). exact Hlo.
      - apply Qle_shift_div_r; [exact Hqk|].
        rewrite <- inject_Z_mult, <- Zle_Qle, <- Z.pow_add_r by lia.
        replace (53 + k)%Z with (Z.succ (Z.log2 m)) by (unfold k; lia). lia. }
    set (r := round_half_even _) in *.
    unfold dyadic_value. cbn [mantissa exponent].
    split; [lia|].
    pose proof (pow2_pos (e + k)) as He.
    destruct Hb as [Hb1 Hb2]. rewrite Zle_Qle in Hb1, Hb2.
    rewrite pow2_Z in Hb1, Hb2 by lia.
    split.
    + replace (Z.log2 m + e)%Z with (52 + (e + k))%Z by (unfold k; lia).
      rewrite (pow2_add 52 (e + k)). apply Qmult_le_compat_r; [exact Hb1 | lra].
    + replace (Z.log2 m + e + 1)%Z with (53 + (e + k))%Z by (unfold k; lia).
      rewrite (pow2_add 53 (e + k)). apply Qmult_le_compat_r; [exact Hb2 | lra].
Qed.

Lemma dyadic_value_shift (m e : Z) :
  (dyadic_value {| mantissa := m; exponent := e - 10 |}
   == dyadic_value {| mantissa := m; exponent := e |} / factor)%Q.
Proof.
  unfold dyadic_value, factor. cbn [mantissa exponent].
  replace (e - 10)%Z with (e + -10)%Z by lia. rewrite (pow2_add e (-10)).
  assert (E : (2 ^ (-10) == 1 / 1024)%Q) by reflexivity.
  rewrite E. field.
Qed.

(** Rounding leaves the value of a double as it is. *)
Lemma round53_exact (x : dyadic) :
  is_double x ->
  (dyadic_value (round53 x) == dyadic_value x)%Q /\ is_double (round53 x).
Proof.
  unfold is_double. intros H.
  destruct (Z.eq_dec (Z.abs (mantissa x)) (2 ^ 53)%Z) as [E|E].
  - destruct x as [m e]. cbn [mantissa] in *.
    assert (Hc : (inject_Z (2 ^ 53) == inject_Z (2 ^ 52) * 2)%Q) by reflexivity.
    assert (Hm : m = (2 ^ 53)%Z \/ m = (- 2 ^ 53)%Z) by lia.
    destruct Hm as [-> | ->].
    + assert (Er : round53 {| mantissa := 2 ^ 53; exponent := e |}
                   = {| mantissa := 2 ^ 52; exponent := e + 1 |}) by reflexivity.
      rewrite Er. split; [|cbn; lia].
      unfold dyadic_value. cbn [mantissa exponent].
      rewrite (pow2_add e 1), Hc. change (2 ^ 1)%Q with 2%Q. ring.
    + assert (Er : round53 {| mantissa := - 2 ^ 53; exponent := e |}
                   = {| mantissa := - 2 ^ 52; exponent := e + 1 |}) by reflexivity.
      rewrite Er. split; [|cbn; lia].
      unfold dyadic_value. cbn [mantissa exponent].
      rewrite (pow2_add e 1), !inject_Z_opp, Hc. change (2 ^ 1)%Q with 2%Q. ring.
  - rewrite round53_small by lia. split; [reflexivity | exact H].
Qed.

Lemma float_div_factor_value (x : dyadic) :
  is_double x ->
  (dyadic_value (float_div_factor x) == dyadic_value x / factor)%Q /\
  is_double (float_div_factor x).
Proof.
  intros H. unfold float_div_factor.
  destruct (round53_exact {| mantissa := mantissa x; exponent := exponent x - 10 |} H)
    as [E Hd].
  split; [|exact Hd]. rewrite E, dyadic_value_shift. now destruct x.
Qed.

Lemma scaled_proper (d : nat) : Proper (Qeq ==> Qeq) (scaled d).
Proof.
  intros x y E. unfold scaled. induction d as [|d IH]; [exact E|].
  rewrite !Nat.iter_succ. now rewrite IH.
Qed.

Lemma scaled_succ (d : nat) (b : Q) : scaled (S d) b = scaled d (b / factor).
Proof. unfold scaled. now rewrite Nat.iter_succ_r. Qed.

(** From the second unit on the loop runs on a double: it stops at the
    first quotient below 1024, and after the last unit line 48 returns
    the next quotient with unit P. *)
Lemma get_size_loop_float (us : list string) (x : dyadic) (suffix : string) :
  is_double x ->
  exists d,
    d <= length us /\
    get_size_loop us (Float x) suffix
    = Ok (fmt2 (scaled d (dyadic_value x)) +:+ nth d us "P" +:+ suffix) /\
    (d < length us -> (scaled d (dyadic_value x) < factor)%Q) /\
    (forall j, j < d -> (factor <= scaled j (dyadic_value x))%Q).
Proof.
  revert x. induction us as [|unit us IH]; intros x Hx; cbn [get_size_loop].
  - exists 0. cbn [length]. repeat split; try lia; intros; lia.
  - unfold lt_factor. cbn [number_value].
    destruct (Qle_bool factor (dyadic_value x)) eqn:E; cbn [negb].
    + cbn [div_factor result_bind].
      destruct (float_div_factor_value x Hx) as [Ev Hd].
      destruct (IH _ Hd) as (d & Hle & Heq & Hlt & Hge).
      exists (S d). cbn [length nth]. rewrite scaled_succ. repeat split.
      * lia.
      * rewrite Heq. now rewrite (fmt2_proper _ _ (scaled_proper d _ _ Ev)).
      * intros H. rewrite <- (scaled_proper d _ _ Ev). apply Hlt. lia.
      * intros [|j] Hj.
        -- now apply Qle_bool_iff.
        -- rewrite scaled_succ, <- (scaled_proper j _ _ Ev). apply Hge. lia.
    + exists 0. change (scaled 0 (dyadic_value x)) with (dyadic_value x).
      cbn [length nth format_2f result_bind]. repeat split.
      * lia.
      * intros _. apply Qnot_le_lt. intros H. apply Qle_bool_iff in H. congruence.
      * intros j Hj. lia.
Qed.

Lemma no_overflow (x : dyadic) :
  (Qabs (dyadic_value x) < 2 ^ 1024)%Q -> overflows x = false.
Proof.
  intros H. unfold overflows.
  destruct (Qle_bool _ _) eqn:E; [|reflexivity].
  apply Qle_bool_iff in E. now apply Qlt_not_le in H.
Qed.

(** An integer of at most 53 bits is a double. *)
Lemma float_of_int_exact (n : Z) :
  (Z.abs n < 2 ^ 53)%Z ->
  exists x, float_of_int n = Ok x /\ (dyadic_value x == inject_Z n)%Q.
Proof.
  intros H. unfold float_of_int.
  rewrite round53_small by (cbn [mantissa]; exact H).
  assert (Ev : (dyadic_value {| mantissa := n; exponent := 0 |} == inject_Z n)%Q).
  { unfold dyadic_value. cbn [mantissa exponent]. change (2 ^ 0)%Q with 1%Q. ring. }
  rewrite no_overflow.
  - eexists. split; [reflexivity | exact Ev].
  - rewrite Ev. rewrite <- (pow2_Z 1024) by lia.
    assert (E : Qabs (inject_Z n) = inject_Z (Z.abs n)) by reflexivity.
    rewrite E, <- Zlt_Qlt.
    assert ((2 ^ 53 < 2 ^ 1024)%Z) by (apply Z.pow_lt_mono_r; lia). lia.
Qed.

Lemma round_half_even_below (q : Q) (b : Z) :
  (q < inject_Z b - (1 # 2))%Q -> (round_half_even q < b)%Z.
Proof.
  intros H. pose proof (round_half_even_error q) as E.
  apply Qabs_Qle_condition in E. destruct E as [_ E].
  assert (Hlt : (inject_Z (round_half_even q) < inject_Z b)%Q) by lra.
  now rewrite <- Zlt_Qlt in Hlt.
Qed.

Lemma round_half_even_above (q : Q) (b : Z) :
  Z.even b = true -> (inject_Z b - (1 # 2) <= q)%Q -> (b <= round_half_even q)%Z.
Proof.
  intros Hb H. unfold round_half_even.
  pose proof (Qfloor_le q) as Hf.
  assert (Hfb : (b - 1 <= Qfloor q)%Z).
  { rewrite <- (Qfloor_Z (b - 1)). apply Qfloor_resp_le.
    replace (b - 1)%Z with (b + -1)%Z by lia.
    rewrite inject_Z_plus. change (inject_Z (-1)) with (-1)%Q. lra. }
  destruct (Qcompare_spec (q - inject_Z (Qfloor q)) (1 # 2)) as [E|E|E].
  - destruct (Z.even (Qfloor q)) eqn:Ev; [|lia].
    destruct (Z.eq_dec (Qfloor q) (b - 1)%Z) as [Ef|Ef]; [|lia].
    rewrite Ef, Z.even_sub, Hb in Ev. discriminate Ev.
  - assert (Hlt : (inject_Z (b - 1) < inject_Z (Qfloor q))%Q).
    { replace (b - 1)%Z with (b + -1)%Z by lia.
      rewrite inject_Z_plus. change (inject_Z (-1)) with (-1)%Q. lra. }
    rewrite <- Zlt_Qlt in Hlt. lia.
  - lia.
Qed.

(** The first quotient [n / 1024] of a positive integer is finite up to
    [2 ^ 1034 - 2 ^ 980], the first integer whose quotient rounds to
    [2 ^ 1024]. *)
Lemma int_div_factor_finite (n : Z) :
  (0 < n < 2 ^ 1034 - 2 ^ 980)%Z ->
  int_div_factor n = Ok (round53 {| mantissa := n; exponent := -10 |}) /\
  is_double (round53 {| mantissa := n; exponent := -10 |}) /\
  (2 ^ (Z.log2 n - 10) <= first_quotient n)%Q.
Proof.
  intros [Hpos Hn]. unfold int_div_factor, first_quotient.
  destruct (round53_bounds n (-10) Hpos) as (Hm & Hlo & Hhi).
  cbv zeta in Hm, Hlo, Hhi.
  assert (HL : (Z.log2 n < 1034)%Z) by (apply Z.log2_lt_pow2; lia).
  assert (Hx : (0 <= dyadic_value (round53 {| mantissa := n; exponent := -10 |}))%Q).
  { pose proof (pow2_pos (Z.log2 n + -10)). lra. }
  split; [|split; [unfold is_double; lia | exact Hlo]].
  rewrite no_overflow; [reflexivity|]. rewrite Qabs_pos by exact Hx.
  destruct (Z.eq_dec (Z.log2 n) 1033%Z) as [E|E].
  - unfold round53. cbn [mantissa exponent]. rewrite (Z.abs_eq n), E by lia.
    change (1033 <? 53)%Z with false. cbv iota.
    change (1033 - 52)%Z with 981%Z. change (-10 + 981)%Z with 971%Z.
    assert (Hr : (round_half_even (inject_Z n / inject_Z (2 ^ 981)) < 2 ^ 53)%Z).
    { apply round_half_even_below. apply Qlt_shift_div_r; [reflexivity|].
      assert (Ec : ((inject_Z (2 ^ 53) - (1 # 2)) * inject_Z (2 ^ 981)
                    == inject_Z (2 ^ 1034 - 2 ^ 980))%Q) by reflexivity.
      rewrite Ec. now rewrite <- Zlt_Qlt. }
    unfold dyadic_value. cbn [mantissa exponent].
    set (r := round_half_even _) in *.
    assert (Ep : (2 ^ 1024 == inject_Z (2 ^ 53) * 2 ^ 971)%Q) by reflexivity.
    rewrite Ep. apply Qmult_lt_compat_r; [apply pow2_pos|].
    now rewrite <- Zlt_Qlt.
  - apply Qle_lt_trans with (1 := Hhi).
    apply Qpower_lt_compat_l; [lia | lra].
Qed.

(** From there on it overflows. *)
Lemma int_div_factor_overflow (n : Z) :
  (2 ^ 1034 - 2 ^ 980 <= n)%Z -> int_div_factor n = Raise OverflowError.
Proof.
  intros Hn.
  assert (Hpos : (0 < n)%Z).
  { assert ((2 ^ 980 < 2 ^ 1034)%Z) by (apply Z.pow_lt_mono_r; lia). lia. }
  assert (HL : (1033 <= Z.log2 n)%Z).
  { apply Z.log2_le_pow2; [lia|].
    assert ((2 * 2 ^ 980 <= 2 ^ 1033)%Z).
    { change (2 * 2 ^ 980)%Z with (2 ^ 981)%Z. apply Z.pow_le_mono_r; lia. }
    change (2 ^ 1034)%Z with (2 * 2 ^ 1033)%Z in Hn. lia. }
  unfold int_div_factor.
  assert (Hv : (2 ^ 1024
                <= dyadic_value (round53 {| mantissa := n; exponent := -10 |}))%Q).
  { destruct (Z.eq_dec (Z.log2 n) 1033%Z) as [E|E].
    - unfold round53. cbn [mantissa exponent]. rewrite (Z.abs_eq n), E by lia.
      change (1033 <? 53)%Z with false. cbv iota.
      change (1033 - 52)%Z with 981%Z. change (-10 + 981)%Z with 971%Z.
      assert (Hr : (2 ^ 53 <= round_half_even (inject_Z n / inject_Z (2 ^ 981)))%Z).
      { apply round_half_even_above; [reflexivity|].
        apply Qle_shift_div_l; [reflexivity|].
        assert (Ec : ((inject_Z (2 ^ 53) - (1 # 2)) * inject_Z (2 ^ 981)
                      == inject_Z (2 ^ 1034 - 2 ^ 980))%Q) by reflexivity.
        rewrite Ec. now rewrite <- Zle_Qle. }
      unfold dyadic_value. cbn [mantissa exponent].
      set (r := round_half_even _) in *.
      assert (Ep : (2 ^ 1024 == inject_Z (2 ^ 53) * 2 ^ 971)%Q) by reflexivity.
      rewrite Ep. apply Qmult_le_compat_r; [|apply Qlt_le_weak, pow2_pos].
      now rewrite <- Zle_Qle.
    - destruct (round53_bounds n (-10) Hpos) as (_ & Hlo & _). cbv zeta in Hlo.
      apply Qle_trans with (2 := Hlo). apply pow2_le. lia. }
  assert (Ho : overflows (round53 {| mantissa := n; exponent := -10 |}) = true).
  { unfold overflows. apply Qle_bool_iff. rewrite Qabs_pos; [exact Hv|].
    pose proof (pow2_pos 1024). lra. }
  now rewrite Ho.
Qed.

Lemma pow1024_pos (d : nat) : (0 < 1024 ^ Z.of_nat d)%Z.
Proof. apply Z.pow_pos_nonneg; lia. Qed.

Lemma Qdiv_lt_Z (n p b : Z) :
  (0 < p)%Z -> (inject_Z n / inject_Z p < inject_Z b)%Q <-> (n < b * p)%Z.
Proof.
  intros Hp.
  assert (Hq : (0 < inject_Z p)%Q) by (change 0%Q with (inject_Z 0); now rewrite <- Zlt_Qlt).
  rewrite Zlt_Qlt, inject_Z_mult. split; intros H.
  - apply (Qmult_lt_r _ _ _ Hq) in H.
    assert (E : (inject_Z n / inject_Z p * inject_Z p == inject_Z n)%Q).
    { field. intros E. rewrite E in Hq. now apply Qlt_irrefl in Hq. }
    now rewrite E in H.
  - now apply Qlt_shift_div_r.
Qed.

Lemma Qdiv_ge_Z (n p b : Z) :
  (0 < p)%Z -> (inject_Z b <= inject_Z n / inject_Z p)%Q <-> (b * p <= n)%Z.
Proof.
  intros Hp. split; intros H.
  - apply Z.le_ngt. intros Hlt. apply (Qdiv_lt_Z n p b Hp) in Hlt.
    now apply Qlt_not_le in Hlt.
  - apply Qnot_lt_le. intros Hlt. apply (Qdiv_lt_Z n p b Hp) in Hlt. lia.
Qed.

Lemma scaled_lt_factor (d : nat) (n : Z) :
  (scaled d (inject_Z n) < factor)%Q <-> (n < 1024 ^ Z.of_nat (S d))%Z.
Proof.
  rewrite scaled_value. change factor with (inject_Z 1024).
  rewrite (Qdiv_lt_Z _ _ _ (pow1024_pos d)).
  now rewrite Nat2Z.inj_succ, Z.pow_succ_r by lia.
Qed.

Lemma scaled_ge_factor (d : nat) (n : Z) :
  (factor <= scaled d (inject_Z n))%Q <-> (1024 ^ Z.of_nat (S d) <= n)%Z.
Proof.
  rewrite scaled_value. change factor with (inject_Z 1024).
  rewrite (Qdiv_ge_Z _ _ _ (pow1024_pos d)).
  now rewrite Nat2Z.inj_succ, Z.pow_succ_r by lia.
Qed.

Lemma unit_in_units (d : nat) : d <= 6 -> In (nth d units "P") units.
Proof.
  intros Hd. do 6 (destruct d as [|d]; [cbn; tauto|]).
  destruct d; [cbn; tauto | lia].
Qed.

Lemma first_quotient_exact (n : Z) :
  (Z.abs n < 2 ^ 53)%Z -> (first_quotient n == inject_Z n / factor)%Q.
Proof.
  intros H. unfold first_quotient.
  rewrite round53_small by (cbn [mantissa]; exact H).
  rewrite (dyadic_value_shift n 0). unfold dyadic_value. cbn [mantissa exponent].
  change (2 ^ 0)%Q with 1%Q. unfold factor. field.
Qed.

(** The first quotient is [n / 1024] up to one part in [2 ^ 53]. *)
Lemma first_quotient_accuracy (n : Z) :
  (0 < n)%Z ->
  (Qabs (first_quotient n - inject_Z n / factor) * inject_Z (2 ^ 53)
   <= inject_Z n / factor)%Q.
Proof.
  intros Hn.
  assert (Hq0 : (0 <= inject_Z n / factor)%Q).
  { unfold factor. apply Qle_shift_div_l; [lra|]. rewrite Qmult_0_l.
    change 0%Q with (inject_Z 0). rewrite <- Zle_Qle. lia. }
  destruct (Z.ltb_spec (Z.log2 n) 53) as [Hlt|Hge].
  - assert (H : (Z.abs n < 2 ^ 53)%Z).
    { rewrite Z.abs_eq by lia. apply Z.log2_lt_pow2; lia. }
    rewrite (first_quotient_exact n H).
    assert (E : (inject_Z n / factor - inject_Z n / factor == 0)%Q) by ring.
    rewrite E. change (Qabs 0) with 0%Q. now rewrite Qmult_0_l.
  - unfold first_quotient, round53. cbn [mantissa exponent].
    rewrite (Z.abs_eq n) by lia.
    destruct (Z.ltb_spec (Z.log2 n) 53) as [Hlt|_]; [lia|].
    set (k := (Z.log2 n - 52)%Z).
    assert (Hk : (0 < k)%Z) by (unfold k; lia).
    destruct (Z.log2_spec n Hn) as [Hlo _].
    assert (Hpk : (0 < 2 ^ k)%Z) by (apply Z.pow_pos_nonneg; lia).
    assert (Hqk : (0 < inject_Z (2 ^ k))%Q)
      by (change 0%Q with (inject_Z 0); now rewrite <- Zlt_Qlt).
    set (q := (inject_Z n / inject_Z (2 ^ k))%Q).
    pose proof (round_half_even_error q) as Herr.
    set (r := round_half_even q) in *.
    unfold dyadic_value. cbn [mantissa exponent].
    set (p := (2 ^ (-10 + k))%Q).
    assert (Hp : (0 < p)%Q) by apply pow2_pos.
    assert (Eq : (inject_Z n / factor == q * p)%Q).
    { unfold q, p, factor. rewrite (pow2_add (-10) k), <- (pow2_Z k) by lia.
      assert (E : (2 ^ (-10) == 1 / 1024)%Q) by reflexivity.
      rewrite E. field. intros E0. rewrite E0 in Hqk. now apply Qlt_irrefl in Hqk. }
    assert (Hq52 : (inject_Z (2 ^ 52) <= q)%Q).
    { unfold q. apply Qle_shift_div_l; [exact Hqk|].
      rewrite <- inject_Z_mult, <- Zle_Qle, <- Z.pow_add_r by lia.
      replace (52 + k)%Z with (Z.log2 n) by (unfold k; lia). exact Hlo. }
    rewrite Eq.
    assert (Ed : (inject_Z r * p - q * p == (inject_Z r - q) * p)%Q) by ring.
    rewrite Ed, Qabs_Qmult, (Qabs_pos p) by lra.
    assert (Hc : (inject_Z (2 ^ 53) == 2 * inject_Z (2 ^ 52))%Q) by reflexivity.
    rewrite Hc.
    set (a := Qabs (inject_Z r - q)) in *.
    set (c := inject_Z (2 ^ 52)) in *.
    assert (H1 : (a * p * (2 * c) <= (1 # 2) * p * (2 * c))%Q).
    { apply Qmult_le_compat_r.
      - apply Qmult_le_compat_r; [exact Herr | lra].
      - assert (0 <= c)%Q by (now unfold c). lra. }
    assert (H2 : ((1 # 2) * p * (2 * c) == c * p)%Q) by ring.
    assert (H3 : (c * p <= q * p)%Q) by (apply Qmult_le_compat_r; [exact Hq52 | lra]).
    lra.
Qed.

Lemma get_size_int_small (n : Z) (suffix : string) :
  (n < 1024)%Z ->
  get_size n suffix
  = result_bind (float_of_int n) (fun x => Ok (fmt2 (dyadic_value x) +:+ suffix)).
Proof.
  intros H. unfold get_size, units. cbn [get_size_loop].
  unfold lt_factor. cbn [number_value].
  assert (E : Qle_bool factor (inject_Z n) = false).
  { destruct (Qle_bool factor (inject_Z n)) eqn:E; [|reflexivity].
    apply Qle_bool_iff in E. change factor with (inject_Z 1024) in E.
    rewrite <- Zle_Qle in E. lia. }
  rewrite E. cbn [negb format_2f]. now destruct (float_of_int n).
Qed.

Lemma get_size_int_large (n : Z) (suffix : string) :
  (1024 <= n)%Z ->
  get_size n suffix
  = result_bind (int_div_factor n)
      (fun x => get_size_loop ["K"; "M"; "G"; "T"; "P"] (Float x) suffix).
Proof.
  intros H. unfold get_size, units. cbn [get_size_loop].
  unfold lt_factor. cbn [number_value].
  assert (E : Qle_bool factor (inject_Z n) = true).
  { apply Qle_bool_iff. change factor with (inject_Z 1024). now rewrite <- Zle_Qle. }
  rewrite E. cbn [negb div_factor]. now destruct (int_div_factor n).
Qed.

Lemma get_size_overflow (n : Z) (suffix : string) :
  (2 ^ 1034 - 2 ^ 980 <= n)%Z -> get_size n suffix = Raise OverflowError.
Proof.
  intros Hn. rewrite get_size_int_large.
  - now rewrite int_div_factor_overflow.
  - assert ((2 ^ 10 + 2 ^ 980 <= 2 ^ 1034)%Z); [|lia].
    assert ((2 ^ 10 <= 2 ^ 980)%Z) by (apply Z.pow_le_mono_r; lia).
    assert ((2 * 2 ^ 980 <= 2 ^ 1034)%Z); [|lia].
    change (2 * 2 ^ 980)%Z with (2 ^ 981)%Z. apply Z.pow_le_mono_r; lia.
Qed.

(** What [get_size] returns on a count that does not overflow. *)
Lemma get_size_spec (n : Z) (suffix : string) :
  (0 <= n < 2 ^ 1034 - 2 ^ 980)%Z ->
  exists d,
    d <= 6 /\
    get_size n suffix = Ok (fmt2 (rendered d n) +:+ nth d units "P" +:+ suffix) /\
    (d < 6 -> (rendered d n < factor)%Q) /\
    (forall j, j < d -> (factor <= rendered j n)%Q).
Proof.
  intros [H0 Hn]. destruct (Z.lt_ge_cases n 1024) as [Hs|Hl].
  - exists 0. split; [lia|]. split; [|split].
    + rewrite get_size_int_small by exact Hs.
      destruct (float_of_int_exact n) as (x & -> & Ev).
      { assert ((2 ^ 10 < 2 ^ 53)%Z) by (apply Z.pow_lt_mono_r; lia). lia. }
      cbn [result_bind rendered nth units]. now rewrite (fmt2_proper _ _ Ev).
    + intros _. cbn [rendered]. change factor with (inject_Z 1024).
      now rewrite <- Zlt_Qlt.
    + intros j Hj. lia.
  - rewrite get_size_int_large by exact Hl.
    destruct (int_div_factor_finite n) as (-> & Hd & _); [lia|].
    cbn [result_bind].
    destruct (get_size_loop_float ["K"; "M"; "G"; "T"; "P"] _ suffix Hd)
      as (d & Hle & Heq & Hlt & Hge).
    cbn [length] in Hle, Hlt.
    exists (S d). split; [lia|]. split; [exact Heq|]. split.
    + intros H. apply Hlt. lia.
    + intros [|j] Hj.
      * cbn [rendered]. change factor with (inject_Z 1024). now rewrite <- Zle_Qle.
      * apply Hge. lia.
Qed.

Lemma rendered_exact (d : nat) (n : Z) :
  (Z.abs n < 2 ^ 53)%Z ->
  (rendered d n == inject_Z n / inject_Z (1024 ^ Z.of_nat d))%Q.
Proof.
  intros H. rewrite <- scaled_value. destruct d as [|d]; [reflexivity|].
  cbn [rendered]. rewrite scaled_succ.
  apply scaled_proper, first_quotient_exact, H.
Qed.

Lemma rendered_accuracy (d : nat) (n : Z) :
  (0 <= n)%Z ->
  (Qabs (rendered d n - inject_Z n / inject_Z (1024 ^ Z.of_nat d)) * inject_Z (2 ^ 53)
   <= inject_Z n / inject_Z (1024 ^ Z.of_nat d))%Q.
Proof.
  intros Hn.
  assert (Hnn : forall j, (0 <= inject_Z n / inject_Z (1024 ^ Z.of_nat j))%Q).
  { intros j. apply Qle_shift_div_l.
    - change 0%Q with (inject_Z 0). rewrite <- Zlt_Qlt. apply pow1024_pos.
    - rewrite Qmult_0_l. change 0%Q with (inject_Z 0). now rewrite <- Zle_Qle. }
  destruct d as [|d].
  - cbn [rendered].
    assert (E : (inject_Z n - inject_Z n / inject_Z (1024 ^ Z.of_nat 0) == 0)%Q).
    { change (inject_Z (1024 ^ Z.of_nat 0)) with 1%Q. field. }
    rewrite E. change (Qabs 0) with 0%Q. rewrite Qmult_0_l. apply Hnn.
  - destruct (Z.eq_dec n 0%Z) as [->|Hnz].
    + rewrite (rendered_exact (S d) 0) by (cbn; lia).
      set (v := (inject_Z 0 / _)%Q).
      assert (E : (v - v == 0)%Q) by ring.
      rewrite E. change (Qabs 0) with 0%Q. rewrite Qmult_0_l. apply Hnn.
    + pose proof (first_quotient_accuracy n ltac:(lia)) as Hacc.
      cbn [rendered]. 
      set (c := inject_Z (1024 ^ Z.of_nat d)).
      assert (Hc : (0 < c)%Q).
      { unfold c. change 0%Q with (inject_Z 0). rewrite <- Zlt_Qlt. apply pow1024_pos. }
      assert (E1 : (inject_Z n / inject_Z (1024 ^ Z.of_nat (S d))
                    == inject_Z n / factor / c)%Q).
      { rewrite <- (scaled_value (S d)), scaled_succ, scaled_value. reflexivity. }
      rewrite E1, (scaled_value d (first_quotient n)). fold c.
      assert (E2 : (first_quotient n / c - inject_Z n / factor / c
                    == (first_quotient n - inject_Z n / factor) * / c)%Q).
      { field. split; [|discriminate].
        intros E0. rewrite E0 in Hc. now apply Qlt_irrefl in Hc. }
      assert (Hic : (0 < / c)%Q) by now apply Qinv_lt_0_compat.
      rewrite E2, Qabs_Qmult, (Qabs_pos (/ c)) by lra.
      set (a := Qabs _) in *. set (b := inject_Z (2 ^ 53)) in *.
      assert (E3 : (a * / c * b == a * b * / c)%Q) by ring.
      rewrite E3. unfold Qdiv at 1.
      apply Qmult_le_compat_r; [exact Hacc | lra].
Qed.

(** C8, as amended (human-size formatting): for every byte count [n]
    with 0 <= n < 2^1034 - 2^980, [get_size] returns a text: the value held
    after [d] divisions by 1024, printed with exactly two decimals,
    followed by the [d]-th of the units "", K, M, G, T, P and the suffix
    B.  The divisions stop at the first value below 1024 and never exceed
    six.  The first division rounds its quotient to a double and the
    later ones are exact, so the value printed is [n / 1024 ^ d] exactly
    for counts below 2^53 and up to one part in 2^53 in general.  1536
    bytes give "1.50KB", 0 bytes give "0.00B", and 2^60 - 1 bytes, whose
    first quotient rounds up to 2^50, give "1.00PB". *)
Theorem get_size_renders (n : Z) :
  (0 <= n < 2 ^ 1034 - 2 ^ 980)%Z ->
  exists d,
    d <= 6 /\
    In (nth d units "P") units /\
    get_size n "B" = Ok (fmt2 (rendered d n) +:+ nth d units "P" +:+ "B") /\
    ((n < 2 ^ 53)%Z ->
     (rendered d n == inject_Z n / inject_Z (1024 ^ Z.of_nat d))%Q) /\
    (Qabs (rendered d n - inject_Z n / inject_Z (1024 ^ Z.of_nat d)) * inject_Z (2 ^ 53)
     <= inject_Z n / inject_Z (1024 ^ Z.of_nat d))%Q /\
    (d < 6 -> (rendered d n < factor)%Q) /\
    (forall j, j < d -> (factor <= rendered j n)%Q) /\
    (exists whole decimals,
        fmt2 (rendered d n) = whole +:+ "." +:+ decimals /\
        String.length decimals = 2) /\
    get_size 1536 "B" = Ok "1.50KB" /\
    get_size 0 "B" = Ok "0.00B" /\
    get_size (2 ^ 60 - 1) "B" = Ok "1.00PB".
Proof.
  intros Hn.
  destruct (get_size_spec n "B" Hn) as (d & Hd & Heq & Hlt & Hge).
  exists d. split; [exact Hd|]. split; [now apply unit_in_units|].
  split; [exact Heq|]. split.
  { intros H. apply rendered_exact. lia. }
  split; [apply rendered_accuracy; lia|].
  split; [exact Hlt|]. split; [exact Hge|].
  split; [apply fmt2_two_decimals|].
  repeat split; vm_compute; reflexivity.
Qed.

Lemma get_size_renders_witness :
  exists d, d <= 6 /\
    get_size 1536 "B" = Ok (fmt2 (rendered d 1536) +:+ nth d units "P" +:+ "B").
Proof.
  destruct (get_size_renders 1536) as (d & Hd & _ & Heq & _).
  - split; [lia|]. apply Z.ltb_lt. reflexivity.
  - exists d. split; [exact Hd | exact Heq].
Defined.

(** Counterexample to C8 as worded: a count of 2^1040 bytes is not
    rendered at all; the first division overflows the doubles and
    [get_size] raises OverflowError. *)
Lemma get_size_overflows :
  get_size (2 ^ 1040) "B" = Raise OverflowError.
Proof. vm_compute. reflexivity. Qed.

(** C10, as amended (beyond the last unit): for every byte count [n]
    with 1024^6 <= n < 2^1034 - 2^980, [get_size] returns the first
    quotient (the double nearest to n / 1024) divided five more times by
    1024, printed with two decimals and the unit P.  That value is at
    least 1, is not kept below 1024 (1024^7 bytes print as "1024.00PB"),
    and is n / 1024^6 up to one part in 2^53.  Whenever [get_size]
    returns a text, its unit is one of the six, so the scale never goes
    beyond P.  It returns a text for every count from 0 to below
    2^1034 - 2^980 and raises OverflowError for every count from there
    on, where the first quotient rounds to 2^1024 or more. *)
Theorem get_size_beyond_P (n : Z) :
  (1024 ^ 6 <= n < 2 ^ 1034 - 2 ^ 980)%Z ->
  get_size n "B" = Ok (fmt2 (rendered 6 n) +:+ "PB") /\
  (1 <= rendered 6 n)%Q /\
  (Qabs (rendered 6 n - inject_Z n / inject_Z (1024 ^ 6)) * inject_Z (2 ^ 53)
   <= inject_Z n / inject_Z (1024 ^ 6))%Q /\
  (forall (m : Z) (suffix text : string),
      get_size m suffix = Ok text ->
      exists d v, d <= 6 /\ In (nth d units "P") units /\
        text = fmt2 v +:+ nth d units "P" +:+ suffix) /\
  (forall m suffix,
      (0 <= m < 2 ^ 1034 - 2 ^ 980)%Z -> exists text, get_size m suffix = Ok text) /\
  (forall m suffix,
      (2 ^ 1034 - 2 ^ 980 <= m)%Z -> get_size m suffix = Raise OverflowError) /\
  get_size (1024 ^ 7) "B" = Ok "1024.00PB".
Proof.
  intros [Hlo Hhi].
  assert (Hpos : (0 < n)%Z) by lia.
  destruct (int_div_factor_finite n ltac:(lia)) as (Hdiv & Hdbl & Hfq).
  assert (H50 : (2 ^ 50 <= first_quotient n)%Q).
  { apply Qle_trans with (2 := Hfq). apply pow2_le.
    assert (60 <= Z.log2 n)%Z; [|lia].
    apply Z.log2_le_pow2; [lia|]. exact Hlo. }
  assert (Hsc : forall j, j <= 5 ->
            (inject_Z (2 ^ (50 - 10 * Z.of_nat j)) <= scaled j (first_quotient n))%Q).
  { intros j Hj. rewrite scaled_value.
    apply Qle_shift_div_l.
    - change 0%Q with (inject_Z 0). rewrite <- Zlt_Qlt. apply pow1024_pos.
    - rewrite <- inject_Z_mult.
      replace (1024 ^ Z.of_nat j)%Z with (2 ^ (10 * Z.of_nat j))%Z
        by (rewrite Z.pow_mul_r by lia; reflexivity).
      rewrite <- Z.pow_add_r by lia.
      replace (50 - 10 * Z.of_nat j + 10 * Z.of_nat j)%Z with 50%Z by lia.
      now rewrite pow2_Z by lia. }
  split; [|split; [|split; [|split; [|split; [|split]]]]].
  - rewrite get_size_int_large by lia. rewrite Hdiv. cbn [result_bind].
    destruct (get_size_loop_float ["K"; "M"; "G"; "T"; "P"] _ "B" Hdbl)
      as (d & Hle & Heq & Hlt & _).
    cbn [length] in Hle, Hlt.
    assert (d = 5) as ->.
    { destruct (decide (d < 5)) as [Hd5|Hd5]; [|lia]. exfalso.
      pose proof (Hlt Hd5) as H1. fold (first_quotient n) in H1.
      pose proof (Hsc d ltac:(lia)) as H2.
      assert (H3 : (inject_Z (2 ^ 10) <= inject_Z (2 ^ (50 - 10 * Z.of_nat d)))%Q).
      { rewrite <- Zle_Qle. apply Z.pow_le_mono_r; lia. }
      change (inject_Z (2 ^ 10)) with factor in H3. lra. }
    exact Heq.
  - cbn [rendered]. pose proof (Hsc 5 ltac:(lia)) as H. exact H.
  - apply (rendered_accuracy 6). lia.
  - intros m suffix text Hm.
    destruct (Z.lt_ge_cases m 1024) as [Hs|Hl].
    + rewrite get_size_int_small in Hm by exact Hs.
      destruct (float_of_int m) as [x|e]; [|discriminate].
      cbn [result_bind] in Hm. injection Hm as <-.
      exists 0, (dyadic_value x). split; [lia|]. split; [cbn; tauto | reflexivity].
    + rewrite get_size_int_large in Hm by exact Hl.
      destruct (round53_bounds m (-10) ltac:(lia)) as (Hman & _).
      cbv zeta in Hman. unfold int_div_factor in Hm.
      destruct (overflows _); [discriminate|]. cbn [result_bind] in Hm.
      destruct (get_size_loop_float ["K"; "M"; "G"; "T"; "P"]
                  (round53 {| mantissa := m; exponent := -10 |}) suffix)
        as (d & Hle & Heq & _).
      { unfold is_double. lia. }
      cbn [length] in Hle. rewrite Heq in Hm. injection Hm as <-.
      exists (S d), (scaled d (dyadic_value (round53 {| mantissa := m; exponent := -10 |}))).
      split; [lia|]. split; [apply unit_in_units; lia | reflexivity].
  - intros m suffix Hm. destruct (get_size_spec m suffix Hm) as (d & _ & Heq & _).
    eexists. exact Heq.
  - intros m suffix Hm. apply get_size_overflow. exact Hm.
  - vm_compute. reflexivity.
Qed.

Lemma get_size_beyond_P_witness :
  get_size (1024 ^ 6) "B" = Ok (fmt2 (rendered 6 (1024 ^ 6)) +:+ "PB").
Proof.
  apply (get_size_beyond_P (1024 ^ 6)).
  split; [lia|]. apply Z.ltb_lt. reflexivity.
Defined.

(** Counterexample to C10 as worded: [get_size] is not total on the
    nonnegative counts, 2^1034 bytes raise OverflowError; and what it
    prints is not the exact quotient: 1297036692682702849 bytes print as
    "1.12PB" while that count divided by 1024^6 rounds to 1.13. *)
Lemma get_size_not_total :
  get_size (2 ^ 1034) "B" = Raise OverflowError /\
  get_size 1297036692682702849 "B" = Ok "1.12PB" /\
  fmt2 (inject_Z 1297036692682702849 / inject_Z (1024 ^ 6)) = "1.13".
Proof. repeat split; vm_compute; reflexivity. Qed.

(** ** Disk and network rates *)

(** C3 (I/O rates): [get_io_rates] always returns; with [last] and [new]
    the two successive snapshots of each counter, taken on either side of
    one sleep of exactly 1 second, the disk rates are the raw differences
    of the byte counters and the network rates are the byte differences
    times 8 divided by 1,000,000.  Snapshots read=100, write=50 and then
    read=180, write=95 give 80 and 45; byte differences 125000 and 250000
    give 1 and 2 Mbps. *)
Theorem get_io_rates_deltas (w : world) :
  let last_disk := oracle w psutil_disk_io_counters (cursor w psutil_disk_io_counters) in
  let new_disk := oracle w psutil_disk_io_counters (S (cursor w psutil_disk_io_counters)) in
  let last_net := oracle w psutil_net_io_counters (cursor w psutil_net_io_counters) in
  let new_net := oracle w psutil_net_io_counters (S (cursor w psutil_net_io_counters)) in
  exists disk_read_s disk_write_s mbps_sent mbps_recv w',
    get_io_rates w = (Ok (disk_read_s, disk_write_s, mbps_sent, mbps_recv), w') /\
    slept w' = (slept w + 1)%Z /\
    disk_read_s = (read_bytes new_disk - read_bytes last_disk)%Z /\
    disk_write_s = (write_bytes new_disk - write_bytes last_disk)%Z /\
    mbps_sent = (inject_Z ((bytes_sent new_net - bytes_sent last_net) * 8) / 1000000)%Q /\
    mbps_recv = (inject_Z ((bytes_recv new_net - bytes_recv last_net) * 8) / 1000000)%Q /\
    (read_bytes last_disk = 100%Z -> write_bytes last_disk = 50%Z ->
     read_bytes new_disk = 180%Z -> write_bytes new_disk = 95%Z ->
     disk_read_s = 80%Z /\ disk_write_s = 45%Z) /\
    ((bytes_sent new_net - bytes_sent last_net = 125000)%Z ->
     (bytes_recv new_net - bytes_recv last_net = 250000)%Z ->
     (mbps_sent == 1)%Q /\ (mbps_recv == 2)%Q).
Proof.
  intros last_disk new_disk last_net new_net.
  eexists (read_bytes new_disk - read_bytes last_disk)%Z,
    (write_bytes new_disk - write_bytes last_disk)%Z,
    (inject_Z ((bytes_sent new_net - bytes_sent last_net) * 8) / 1000000)%Q,
    (inject_Z ((bytes_recv new_net - bytes_recv last_net) * 8) / 1000000)%Q, _.
  split; [reflexivity|].
  split; [reflexivity|]. do 4 (split; [reflexivity|]). split.
  - intros H1 H2 H3 H4. rewrite H1, H2, H3, H4. split; reflexivity.
  - intros H1 H2. rewrite H1, H2. split; reflexivity.
Qed.

Lemma get_io_rates_deltas_witness :
  exists mbps_sent mbps_recv w',
    get_io_rates sample_world = (Ok (80%Z, 45%Z, mbps_sent, mbps_recv), w') /\
    (mbps_sent == 1)%Q /\ (mbps_recv == 2)%Q.
Proof.
  destruct (get_io_rates_deltas sample_world)
    as (dr & dw & ms & mr & w' & Hrun & _ & Hdr & Hdw & Hms & Hmr & Hdisk & Hnet).
  destruct (Hdisk eq_refl eq_refl eq_refl eq_refl) as [-> ->].
  exists ms, mr, w'. split; [exact Hrun|]. exact (Hnet eq_refl eq_refl).
Defined.

(** ** The log file *)

(** C7 (schema-ensure is idempotent): when the log file exists,
    [setup_csv] returns the host unchanged, so the file is neither
    truncated nor rewritten; when it does not exist, afterwards it holds
    exactly one row, the header, and every other file is as before; a
    second call after a first changes nothing. *)
Theorem setup_csv_idempotent (cfg : config) (w : world) :
  (is_Some (files w !! LOG_FILE cfg) -> setup_csv cfg w = (Ok tt, w)) /\
  (files w !! LOG_FILE cfg = None ->
   exists w', setup_csv cfg w = (Ok tt, w') /\
     files w' !! LOG_FILE cfg = Some [map PyStr (header cfg)] /\
     (forall path, path <> LOG_FILE cfg -> files w' !! path = files w !! path)) /\
  setup_csv cfg (snd (setup_csv cfg w)) = (Ok tt, snd (setup_csv cfg w)).
Proof.
  assert (Hnew : files w !! LOG_FILE cfg = None ->
            exists w', setup_csv cfg w = (Ok tt, w') /\
              files w' !! LOG_FILE cfg = Some [map PyStr (header cfg)] /\
              (forall path, path <> LOG_FILE cfg -> files w' !! path = files w !! path)).
  { intros Hnone. unfold setup_csv. rewrite Hnone. eexists. split; [reflexivity|].
    rewrite files_set_files. split; [apply lookup_insert_eq|].
    intros path Hne. now apply lookup_insert_ne. }
  assert (Hold : is_Some (files w !! LOG_FILE cfg) -> setup_csv cfg w = (Ok tt, w)).
  { intros [rows Hrows]. unfold setup_csv. now rewrite Hrows. }
  split; [exact Hold|]. split; [exact Hnew|].
  destruct (files w !! LOG_FILE cfg) as [rows|] eqn:E.
  - rewrite (Hold (ex_intro _ rows eq_refl)). cbn [snd].
    unfold setup_csv. now rewrite E.
  - destruct (Hnew eq_refl) as (w' & Hrun & Hfile & _).
    rewrite Hrun. cbn [snd]. unfold setup_csv. now rewrite Hfile.
Qed.

Lemma setup_csv_idempotent_witness :
  exists w', setup_csv default_config sample_world = (Ok tt, w') /\
    files w' !! LOG_FILE default_config = Some [map PyStr (header default_config)] /\
    setup_csv default_config w' = (Ok tt, w').
Proof.
  destruct (setup_csv_idempotent default_config sample_world) as (_ & Hnew & _).
  destruct (Hnew eq_refl) as (w' & Hrun & Hfile & _).
  exists w'. split; [exact Hrun|]. split; [exact Hfile|].
  apply (proj1 (setup_csv_idempotent default_config w')).
  rewrite Hfile. eexists. reflexivity.
Defined.

(** ** Schema stability *)

Lemma top_columns_length (n : nat) : length (top_columns n) = 3 * (n * 8).
Proof.
  unfold top_columns, categories. cbn [flat_map]. rewrite app_nil_r, !length_app.
  assert (H : forall c, length (flat_map (process_columns c) (seq 1 n)) = n * 8).
  { intros c. rewrite (flat_map_constant_length (c := 8)) by reflexivity.
    now rewrite length_seq. }
  rewrite !H. cbn [length]. lia.
Qed.



(** ** Padding of the rank slots *)

Lemma slot_items_field_values (category : string) (i : nat) (proc_data : option snapshot) :
  slot_items category i proc_data
  = map (fun fv => (column category (i + 1) (fst fv), proc_get proc_data (snd fv)))
      field_values.
Proof. reflexivity. Qed.

Lemma field_values_fields : map fst field_values = fields.
Proof. reflexivity. Qed.

Lemma row_lookup (cfg : config) (sys : list (string * pyval)) (all_procs : list snapshot)
    (category : string) (sel : list snapshot) (i : nat) (field : string)
    (proj : snapshot -> pyval) :
  map fst sys = system_columns ->
  In (category, sel) (selections cfg all_procs) ->
  i < TOP_N_PROCESSES cfg ->
  In (field, proj) field_values ->
  dict_get (build_log_data cfg sys all_procs) (column category (i + 1) field)
  = Some (proc_get (sel !! i) proj).
Proof.
  intros Hsys Hsel Hi Hfield.
  apply dict_get_elem.
  - rewrite build_log_data_keys by exact Hsys. apply NoDup_header.
  - rewrite build_log_data_items by exact Hsys.
    apply elem_of_app. right. unfold slot_list.
    apply elem_of_flat_map. exists (category, sel).
    split; [now apply list_elem_of_In|]. cbn [fst snd].
    apply elem_of_flat_map. exists i. split; [apply elem_of_seq; lia|].
    rewrite slot_items_field_values.
    apply list_elem_of_In, in_map_iff. exists (field, proj). auto.
Qed.

Lemma top_by_length {A} (n : nat) (key : A -> Q) (l : list A) :
  length (top_by n key l) <= n.
Proof. unfold top_by. apply firstn_le_length. Qed.

(** C2, as amended (sentinel padding): whenever a cycle completes, each
    of the three selections has at most N entries; in the logged row,
    slot i of a category holds the eight values of the i-th selected
    process, and every slot beyond the selection holds "N/A" in each of
    its eight fields.  The console shows one line for each selected
    process between its fixed lines, the line formatted for that process,
    and no line for an unfilled slot. *)
Theorem unfilled_slots_padded (str_float strftime_minutes : Q -> string) (cfg : config)
    (w w' : world) (row : dict pyval) :
  cycle str_float strftime_minutes cfg w = (Ok row, w') ->
  exists all_procs,
    enumerate (oracle w time_time (S (cursor w time_time)))
      (oracle w psutil_process_iter (cursor w psutil_process_iter)) [] = Ok all_procs /\
    (forall category sel, In (category, sel) (selections cfg all_procs) ->
       length sel <= TOP_N_PROCESSES cfg /\
       (forall i field proj,
           i < TOP_N_PROCESSES cfg -> In (field, proj) field_values ->
           dict_get row (column category (i + 1) field)
           = Some (proc_get (sel !! i) proj)) /\
       (forall i field,
           length sel <= i < TOP_N_PROCESSES cfg -> In field fields ->
           dict_get row (column category (i + 1) field) = Some NA)) /\
    (exists head_lines cpu_listing mem_lines mem_listing disk_lines disk_listing
            net_lines,
        screen w'
        = (head_lines
           ++ "Top CPU Consuming Tasks:" :: cpu_listing
           ++ mem_lines
           ++ "Top Memory Consuming Tasks (RSS):" :: mem_listing
           ++ disk_lines
           ++ "Top Disk I/O Tasks:" :: disk_listing
           ++ net_lines)%list /\
        map cpu_task_line (top_by (TOP_N_PROCESSES cfg) key_cpu all_procs)
        = map Ok cpu_listing /\
        map mem_task_line (top_by (TOP_N_PROCESSES cfg) key_mem all_procs)
        = map Ok mem_listing /\
        map disk_task_line (top_by (TOP_N_PROCESSES cfg) key_disk all_procs)
        = map Ok disk_listing /\
        length head_lines = 4 /\ length mem_lines = 2 /\ length disk_lines = 2 /\
        length net_lines = 2).
Proof.
  intros Hrun.
  destruct (cycle_inv _ _ _ _ _ _ Hrun)
    as (sys & all_procs & Hsys & Henum & -> & _ & _ & Hshown).
  exists all_procs. split; [exact Henum|]. split; [|exact Hshown].
  intros category sel Hsel. split; [|split].
  - unfold selections in Hsel. cbn [In] in Hsel.
    destruct Hsel as [E|[E|[E|[]]]]; injection E as _ <-; apply top_by_length.
  - intros i field proj Hi Hfield. now apply row_lookup.
  - intros i field [Hge Hi] Hfield.
    rewrite <- field_values_fields in Hfield.
    apply in_map_iff in Hfield as ([field' proj] & <- & Hfield). cbn [fst].
    rewrite (row_lookup cfg sys all_procs category sel i field' proj) by assumption.
    now rewrite (lookup_ge_None_2 sel i Hge).
Qed.

Lemma unfilled_slots_padded_witness :
  exists row,
    fst (cycle sample_str_float sample_strftime default_config sample_world) = Ok row /\
    dict_get row (column "cpu" 2 "pid") = Some (PyInt 1) /\
    dict_get row (column "cpu" 3 "pid") = Some NA.
Proof.
  destruct (cycle sample_str_float sample_strftime default_config sample_world)
    as [r w'] eqn:E.
  assert (Hok : exists row, r = Ok row).
  { change r with (fst (r, w')). rewrite <- E. eexists. vm_compute. reflexivity. }
  destruct Hok as [row ->]. exists row. split; [reflexivity|].
  destruct (unfilled_slots_padded _ _ _ _ _ _ E) as (all_procs & Henum & Hrow & _).
  vm_compute in Henum. injection Henum as <-.
  destruct (Hrow "cpu" _ (or_introl eq_refl)) as (_ & Hfilled & Hpad).
  split.
  - apply (Hfilled 1 "pid" (fun p => PyInt (pid p))); [vm_compute; lia | left; reflexivity].
  - apply (Hpad 2 "pid"); [vm_compute; lia | left; reflexivity].
Defined.

(** Counterexample to C2 as worded: with one process and N = 5 the CPU
    selection has one entry, the task listing printed for it is a single
    line, and slots 2 to 5 have no line at all, so the display shows no
    marker for them. *)
Lemma display_omits_unfilled_slots :
  let sel := top_by 5 key_cpu [lone_snapshot] in
  let listing := screen (snd (print_tasks cpu_task_line sel sample_world)) in
  length sel = 1 /\
  listing = ["  PID: 1      | Name: init                 | Usage: 0.00%"] /\
  ~ unfilled_slots_shown 5 sel listing.
Proof.
  cbv zeta. split; [reflexivity|]. split; [vm_compute; reflexivity|].
  intros H. destruct (H 1) as (line & Hline & _).
  - vm_compute. lia.
  - vm_compute in Hline. discriminate Hline.
Qed.

(** ** Ranking *)

Section Ranking.

Context {A : Type} (key : A -> Q).

Lemma insert_desc_perm (x : A) (l : list A) : insert_desc key x l ≡ₚ x :: l.
Proof.
  induction l as [|y l IH]; cbn [insert_desc]; [reflexivity|].
  destruct (Qle_bool (key y) (key x)); [reflexivity|].
  rewrite IH. apply perm_swap.
Qed.

Lemma sorted_reverse_perm (l : list A) : sorted_reverse key l ≡ₚ l.
Proof.
  induction l as [|x l IH]; cbn [sorted_reverse foldr]; [reflexivity|].
  fold (sorted_reverse key l). now rewrite insert_desc_perm, IH.
Qed.

Lemma insert_desc_sorted (x : A) (l : list A) :
  StronglySorted (descending key) l -> StronglySorted (descending key) (insert_desc key x l).
Proof.
  induction l as [|y l IH]; intros Hl; cbn [insert_desc].
  - repeat constructor.
  - apply StronglySorted_inv in Hl as [Hl Hy].
    destruct (Qle_bool (key y) (key x)) eqn:E.
    + apply Qle_bool_iff in E. constructor; [now constructor|].
      constructor; [exact E|].
      eapply Forall_impl; [exact Hy|]. intros z Hz. unfold descending in *.
      now apply Qle_trans with (key y).
    + assert (Hxy : (key x <= key y)%Q).
      { apply Qlt_le_weak, Qnot_le_lt. intros H. apply Qle_bool_iff in H. congruence. }
      constructor; [now apply IH|].
      apply Forall_forall. intros z Hz.
      rewrite (insert_desc_perm x l) in Hz.
      apply elem_of_cons in Hz as [->|Hz]; [exact Hxy|].
      rewrite Forall_forall in Hy. now apply Hy.
Qed.

Lemma sorted_reverse_sorted (l : list A) :
  StronglySorted (descending key) (sorted_reverse key l).
Proof.
  induction l as [|x l IH]; cbn [sorted_reverse foldr]; [constructor|].
  now apply insert_desc_sorted.
Qed.

(** Insertion passes only elements of strictly larger key, so it never
    crosses an element of the same key. *)
Lemma filter_insert_desc (k : Q) (x : A) (l : list A) :
  List.filter (fun y => Qeq_bool (key y) k) (insert_desc key x l)
  = List.filter (fun y => Qeq_bool (key y) k) (x :: l).
Proof.
  induction l as [|y l IH]; cbn [insert_desc]; [reflexivity|].
  destruct (Qle_bool (key y) (key x)) eqn:E; [reflexivity|].
  cbn [List.filter] in *. rewrite IH.
  destruct (Qeq_bool (key x) k) eqn:Ex, (Qeq_bool (key y) k) eqn:Ey; try reflexivity.
  exfalso. apply Qeq_bool_iff in Ex, Ey.
  assert (H : Qle_bool (key y) (key x) = true)
    by (apply Qle_bool_iff; rewrite Ex, Ey; apply Qle_refl).
  congruence.
Qed.

Lemma sorted_reverse_stable (k : Q) (l : list A) :
  List.filter (fun y => Qeq_bool (key y) k) (sorted_reverse key l)
  = List.filter (fun y => Qeq_bool (key y) k) l.
Proof.
  induction l as [|x l IH]; cbn [sorted_reverse foldr]; [reflexivity|].
  fold (sorted_reverse key l). rewrite filter_insert_desc.
  cbn [List.filter]. now rewrite IH.
Qed.

Lemma filter_take_prefix (f : A -> bool) (n : nat) (l : list A) :
  List.filter f (take n l) `prefix_of` List.filter f l.
Proof.
  exists (List.filter f (drop n l)).
  now rewrite <- List.filter_app, take_drop.
Qed.

Lemma top_by_ranked (n : nat) (l : list A) : ranked n key l (top_by n key l).
Proof.
  unfold ranked, top_by.
  pose proof (sorted_reverse_sorted l) as Hs.
  rewrite <- (take_drop n (sorted_reverse key l)) in Hs.
  apply StronglySorted_app in Hs as (Hcross & Htake & _).
  split; [exact Htake|]. split.
  { now rewrite length_take, (Permutation_length (sorted_reverse_perm l)). }
  split; [apply firstn_le_length|]. split.
  - exists (drop n (sorted_reverse key l)). split.
    + rewrite take_drop. apply sorted_reverse_perm.
    + intros a b Ha Hb. exact (Hcross a b Ha Hb).
  - intros k. rewrite <- (sorted_reverse_stable k l). apply filter_take_prefix.
Qed.

End Ranking.

Lemma snapshot_disk_io_total (current_time : Q) (proc : process) (s : snapshot) :
  snapshot_of current_time proc = Ok s ->
  disk_io_total s = (disk_read_bytes s + disk_write_bytes s)%Z.
Proof.
  unfold snapshot_of. destruct (info proc) as [pinfo|e]; [|discriminate].
  destruct (info_memory_info pinfo); [|discriminate].
  intros E. injection E as <-. cbn.
  now destruct (info_io_counters pinfo).
Qed.

(** C4 (ranking): for every list of process snapshots, the three
    selections, keyed by CPU percent, by resident memory and by total
    disk I/O (read plus write bytes for an enumerated process), are each
    in descending key order, of length [min N (length list)] and so at
    most N, taken from the list (a pure function of it, which it does not
    alter) with no left-out element above a selected one, and with equal
    keys in their order of enumeration.  CPU percents 10, 55, 55, 2, 30
    with N = 3 select the first 55, the second 55 and then 30. *)
Theorem selections_ranked (cfg : config) (all_procs : list snapshot) :
  exists top_cpu top_mem top_disk,
    selections cfg all_procs
    = [("cpu", top_cpu); ("memory", top_mem); ("disk_io", top_disk)] /\
    ranked (TOP_N_PROCESSES cfg) (fun p => cpu_percent p) all_procs top_cpu /\
    ranked (TOP_N_PROCESSES cfg) (fun p => inject_Z (mem_rss p)) all_procs top_mem /\
    ranked (TOP_N_PROCESSES cfg) (fun p => inject_Z (disk_io_total p)) all_procs top_disk /\
    (forall current_time proc s, snapshot_of current_time proc = Ok s ->
       disk_io_total s = (disk_read_bytes s + disk_write_bytes s)%Z) /\
    map (fun p => (pid p, cpu_percent p)) (top_by 3 key_cpu five_processes)
    = [(2%Z, 55%Q); (3%Z, 55%Q); (5%Z, 30%Q)].
Proof.
  eexists _, _, _. split; [reflexivity|].
  split; [apply (top_by_ranked key_cpu)|].
  split; [apply (top_by_ranked key_mem)|].
  split; [apply (top_by_ranked key_disk)|].
  split; [exact snapshot_disk_io_total | reflexivity].
Qed.

(** ** Enumeration of the processes *)

Lemma enumerate_ok (current_time : Q) (procs : list process) (acc l : list snapshot) :
  enumerate current_time procs acc = Ok l ->
  l = (acc ++ omap (kept current_time) procs)%list.
Proof.
  revert acc. induction procs as [|proc rest IH]; intros acc; cbn [enumerate omap list_omap].
  - intros E. injection E as <-. now rewrite app_nil_r.
  - unfold kept at 1. destruct (snapshot_of current_time proc) as [s|e].
    + intros E. apply IH in E. now rewrite <- app_assoc in E.
    + destruct (is_transient e); [apply IH | discriminate].
Qed.

Lemma enumerate_raise (current_time : Q) (procs : list process) (acc : list snapshot)
    (e : exn) :
  enumerate current_time procs acc = Raise e -> is_transient e = false.
Proof.
  revert acc. induction procs as [|proc rest IH]; intros acc; cbn [enumerate].
  - discriminate.
  - destruct (snapshot_of current_time proc) as [s|e']; [apply IH|].
    destruct (is_transient e') eqn:E; [apply IH|].
    intros H. now injection H as <-.
Qed.

Lemma enumerate_total (current_time : Q) (procs : list process) (acc : list snapshot) :
  Forall (fun proc => forall e, snapshot_of current_time proc = Raise e ->
                                is_transient e = true) procs ->
  enumerate current_time procs acc = Ok (acc ++ omap (kept current_time) procs)%list.
Proof.
  intros Hall. revert acc.
  induction Hall as [|proc rest Hproc _ IH]; intros acc; cbn [enumerate omap list_omap].
  - now rewrite app_nil_r.
  - unfold kept at 1. destruct (snapshot_of current_time proc) as [s|e].
    + now rewrite IH, <- app_assoc.
    + now rewrite (Hproc e eq_refl), IH.
Qed.

Lemma get_all_processes_info_run (w : world) :
  get_all_processes_info w
  = (enumerate (oracle w time_time (cursor w time_time))
       (oracle w psutil_process_iter (cursor w psutil_process_iter)) [],
     advance psutil_process_iter (advance time_time w)).
Proof. reflexivity. Qed.

(** C9 (transient read failures), the code against the claim: a process
    that denied access is in the table with its memory figures missing
    ([memory_info] is None, the value [process_iter] fills in); reading
    [.rss] on them at line 84 raises AttributeError, which the [except]
    clause of line 91 does not name.  So that process is not skipped:
    the enumeration ends with the error, the cycle logs nothing, and the
    run reports the error and stops.  What the clause does absorb is a
    NoSuchProcess, AccessDenied or ZombieProcess raised by reading the
    process handle: such a process is skipped and the enumeration goes
    on. *)
Theorem denied_process_stops_the_monitor (str_float strftime_minutes : Q -> string)
    (str_exn : exn -> string) (cfg : config) (n : nat) (w : world)
    (before after : list process) (denied : pinfo) (cpu_temp : pyval) :
  let current_time := oracle w time_time (S (cursor w time_time)) in
  read_temperature
    (oracle w psutil_sensors_temperatures (cursor w psutil_sensors_temperatures))
  = Ok cpu_temp ->
  oracle w psutil_process_iter (cursor w psutil_process_iter)
  = (before ++ {| info := Ok denied |} :: after)%list ->
  info_memory_info denied = None ->
  Forall (fun proc =>
            is_Some (kept current_time proc) \/ info proc = Raise NoSuchProcess \/
            info proc = Raise AccessDenied \/ info proc = Raise ZombieProcess) before ->
  enumerate current_time (before ++ {| info := Ok denied |} :: after) []
  = Raise AttributeError /\
  (exists w',
      cycle str_float strftime_minutes cfg w = (Raise AttributeError, w') /\
      files w' = files w) /\
  (exists w',
      run_spm str_float strftime_minutes str_exn cfg (S n) w = (Ok tt, w') /\
      last (screen w') = Some ("An error occurred: " +:+ str_exn AttributeError) /\
      log_rows cfg w'
      = match files w !! LOG_FILE cfg with
        | None => [map PyStr (header cfg)]
        | Some old => old
        end) /\
  (forall e rest acc,
      e = NoSuchProcess \/ e = AccessDenied \/ e = ZombieProcess ->
      enumerate current_time ({| info := Raise e |} :: rest) acc
      = enumerate current_time rest acc).
Proof.
  intros current_time Htemp Htable Hmem Hbefore.
  assert (Henum : enumerate current_time (before ++ {| info := Ok denied |} :: after) []
                  = Raise AttributeError).
  { clear Htable. generalize (@nil snapshot) as acc.
    induction Hbefore as [|proc procs Hproc _ IH]; intros acc; cbn [app enumerate].
    - unfold snapshot_of. cbn [info]. rewrite Hmem. reflexivity.
    - destruct Hproc as [[s Hs]|Hproc].
      + unfold kept in Hs. revert Hs.
        destruct (snapshot_of current_time proc); [intros _; apply IH | discriminate].
      + unfold snapshot_of.
        destruct Hproc as [-> | [-> | ->]]; cbn [is_transient]; apply IH. }
  split; [exact Henum|]. split; [|split].
  - pose proof (cycle_outcome str_float strftime_minutes cfg w) as H.
    cbv beta zeta in H. fold current_time in H. rewrite Htemp, Htable, Henum in H.
    destruct H as (w' & Hrun & Hfiles & _). now exists w'.
  - unfold run_spm. rewrite run_setup_csv, run_ask.
    unfold monitor_loop. cbn [cycles]. unfold io_bind at 1.
    match goal with
    | |- context [cycle _ _ _ ?w0] =>
        pose proof (cycle_outcome str_float strftime_minutes cfg w0) as H;
        assert (Hstart : log_rows cfg w0
                         = match files w !! LOG_FILE cfg with
                           | None => [map PyStr (header cfg)]
                           | Some old => old
                           end)
    end.
    { unfold log_rows. autorewrite with world.
      destruct (files w !! LOG_FILE cfg) as [old|] eqn:E.
      - now rewrite E.
      - autorewrite with world. now rewrite lookup_insert_eq. }
    cbv beta zeta in H.
    assert (Ho : forall w1, oracle (advance psutil_cpu_percent w1) = oracle w1)
      by reflexivity.
    destruct (files w !! LOG_FILE cfg) as [old|];
      autorewrite with world in H; fold current_time in H;
      rewrite Htemp, Htable, Henum in H;
      destruct H as (w' & Hrun & Hfiles & _); rewrite Hrun; unfold print;
      (eexists; split; [reflexivity|]); autorewrite with world;
      (split; [now rewrite last_snoc|]);
      unfold log_rows in *; autorewrite with world; now rewrite Hfiles.
  - intros e rest acc [-> | [-> | ->]]; reflexivity.
Qed.

Lemma denied_process_stops_the_monitor_witness :
  (exists w',
      cycle sample_str_float sample_strftime default_config denied_world
      = (Raise AttributeError, w') /\
      files w' = files denied_world) /\
  (exists w',
      run_spm sample_str_float sample_strftime
        (fun _ => "'NoneType' object has no attribute 'rss'") default_config 1
        denied_world = (Ok tt, w') /\
      last (screen w')
      = Some "An error occurred: 'NoneType' object has no attribute 'rss'").
Proof.
  destruct (denied_process_stops_the_monitor sample_str_float sample_strftime
              (fun _ => "'NoneType' object has no attribute 'rss'") default_config 0
              denied_world [sample_process 1 "init" 0 1536]
              [sample_process 7 "spm" 3 4096]
              {| info_pid := 9; info_name := Some "root_daemon"; info_cpu_percent := 1;
                 info_memory_info := None; info_io_counters := None;
                 info_create_time := 40 |}
              (PyFloat 45))
    as (_ & Hcycle & (w' & Hrun & Hlast & _) & _).
  - reflexivity.
  - reflexivity.
  - reflexivity.
  - constructor; [|constructor]. left. eexists. reflexivity.
  - split; [exact Hcycle|]. exists w'. split; [exact Hrun | exact Hlast].
Defined.

(** C6, as amended (execution time): the enumeration reads the clock
    once, before it looks at any process; every snapshot it returns
    comes from a process of the table, and its execution time is that
    single reading minus the creation time of the process. *)
Theorem execution_time_single_reading (w w' : world) (snaps : list snapshot) :
  get_all_processes_info w = (Ok snaps, w') ->
  let current_time := oracle w time_time (cursor w time_time) in
  cursor w' time_time = S (cursor w time_time) /\
  Forall (fun s =>
            exists proc pinfo,
              proc ∈ oracle w psutil_process_iter (cursor w psutil_process_iter) /\
              info proc = Ok pinfo /\ pid s = info_pid pinfo /\
              execution_time_s s = (current_time - info_create_time pinfo)%Q) snaps.
Proof.
  rewrite get_all_processes_info_run. intros E current_time.
  injection E as Hsnaps <-. split.
  { autorewrite with world. reflexivity. }
  apply enumerate_ok in Hsnaps. cbn [app] in Hsnaps. subst snaps.
  apply Forall_forall. intros s Hs.
  apply list_elem_of_omap in Hs as (proc & Hproc & Hkept).
  unfold kept, snapshot_of in Hkept.
  destruct (info proc) as [pinfo|e] eqn:Hinfo; [|discriminate].
  destruct (info_memory_info pinfo); [|discriminate].
  injection Hkept as <-. exists proc, pinfo. auto.
Qed.

Lemma execution_time_single_reading_witness :
  exists snaps,
    fst (get_all_processes_info sample_world) = Ok snaps /\
    Forall (fun s => (execution_time_s s == 60)%Q) snaps.
Proof.
  destruct (get_all_processes_info sample_world) as [r w'] eqn:E.
  assert (Hok : exists snaps, r = Ok snaps).
  { change r with (fst (r, w')). rewrite <- E. eexists. vm_compute. reflexivity. }
  destruct Hok as [snaps ->]. exists snaps. split; [reflexivity|].
  destruct (execution_time_single_reading _ _ _ E) as [_ Hall].
  eapply Forall_impl; [exact Hall|].
  intros s (proc & pinfo & Hproc & Hinfo & _ & ->).
  repeat (apply elem_of_cons in Hproc as [->|Hproc];
          [vm_compute in Hinfo; try discriminate Hinfo; injection Hinfo as <-;
           reflexivity|]).
  inversion Hproc.
Defined.

(** Counterexample to C6 as worded: on the sample host, whose clock
    moves on at every reading, the enumeration reads the clock once and
    gives both processes the execution time 60, while an enumeration that
    re-read the clock for every process would read it three times and
    give 60 and 62. *)
Lemma clock_not_reread_per_process :
  let source := get_all_processes_info sample_world in
  let rereading := get_all_processes_info_rereading_clock sample_world in
  (exists snaps, fst source = Ok snaps /\ map execution_time_s snaps = [60%Q; 60%Q]) /\
  (exists snaps, fst rereading = Ok snaps /\ map execution_time_s snaps = [60%Q; 62%Q]) /\
  cursor (snd source) time_time = 1 /\
  cursor (snd rereading) time_time = 3 /\
  fst source <> fst rereading.
Proof.
  cbv zeta. split; [eexists; split; vm_compute; reflexivity|].
  split; [eexists; split; vm_compute; reflexivity|].
  split; [vm_compute; reflexivity|]. split; [vm_compute; reflexivity|].
  vm_compute. intros H. discriminate H.
Qed.

(** ** The temperature lookup *)

(** What the lookup does deliver. *)
Lemma temperature_without_sensors : read_temperature (Ok []) = Ok NA.
Proof. reflexivity. Qed.

Lemma temperature_falls_back (temps others : sensors) (group label : string)
    (current : Q) (high critical : option Q) (entries : list sensor_entry) :
  temps = (group, shwtemp label current high critical :: entries) :: others ->
  dict_get temps "coretemp" = None ->
  read_temperature (Ok temps) = Ok (PyFloat current).
Proof.
  intros -> Hnone. unfold read_temperature, lookup_temperature.
  cbn [result_bind]. rewrite Hnone. reflexivity.
Qed.

Lemma temperature_never_raises_lookup_errors (reading : result sensors) (e : exn) :
  read_temperature reading = Raise e ->
  e <> AttributeError /\ e <> IndexError /\ e <> KeyError.
Proof.
  unfold read_temperature.
  destruct (result_bind reading lookup_temperature) as [v|[]]; intros H;
    try discriminate H; injection H as <-; repeat split; discriminate.
Qed.

(** C5 (temperature lookup), the code against the claim: when the
    "coretemp" group is present and its first entry is a reading as the
    provider returns it (a named tuple with the attribute [current]),
    the lookup does not use that reading: calling [get] on it raises
    AttributeError, which the [except] clause turns into "N/A", whatever
    other sensor groups exist. *)
Theorem coretemp_reading_lost (temps : sensors) (label : string) (current : Q)
    (high critical : option Q) (entries : list sensor_entry) :
  dict_get temps "coretemp" = Some (shwtemp label current high critical :: entries) ->
  read_temperature (Ok temps) = Ok NA.
Proof.
  intros H. unfold read_temperature, lookup_temperature.
  cbn [result_bind]. rewrite H. reflexivity.
Qed.

Lemma coretemp_reading_lost_witness :
  read_temperature
    (Ok [("acpitz", [shwtemp "" 40 None None]);
         ("coretemp", [shwtemp "Core 0" 45 (Some 80%Q) (Some 100%Q)])])
  = Ok NA.
Proof.
  apply (coretemp_reading_lost _ "Core 0" 45 (Some 80%Q) (Some 100%Q) []).
  reflexivity.
Defined.

(** * Further properties of the monitor *)

(** ** The outcome of one cycle *)

Lemma system_cell (cfg : config) (sys : list (string * pyval)) (all_procs : list snapshot)
    (k : string) (v : pyval) :
  map fst sys = system_columns -> In (k, v) sys ->
  dict_get (build_log_data cfg sys all_procs) k = Some v.
Proof.
  intros Hsys Hin. apply dict_get_elem.
  - rewrite build_log_data_keys by exact Hsys. apply NoDup_header.
  - rewrite build_log_data_items by exact Hsys.
    apply elem_of_app. left. now apply list_elem_of_In.
Qed.

Lemma listing_shown_length (top_cpu top_mem top_disk : list snapshot)
    (lines : list string) :
  listing_shown top_cpu top_mem top_disk lines ->
  length lines = 13 + length top_cpu + length top_mem + length top_disk.
Proof.
  intros (hl & cl & ml & mml & dl & ddl & nl & -> & Hc & Hm & Hd & H1 & H2 & H3 & H4).
  apply (f_equal (@length _)) in Hc, Hm, Hd. rewrite !length_map in Hc, Hm, Hd.
  repeat first [ rewrite length_app | progress cbn [length] ]. lia.
Qed.

(** The row is logged before the console is drawn: when the readings
    and the enumeration go through and one of the processes ranked for
    the CPU listing has no name, the cycle fails with a TypeError only
    after it has appended its row to the log and cleared the console,
    whose first line it has redrawn; the final sleep is skipped. *)
Theorem display_failure_after_logging (str_float strftime_minutes : Q -> string)
    (cfg : config) (w : world) (cpu_temp : pyval) (all_procs : list snapshot)
    (p : snapshot) :
  read_temperature
    (oracle w psutil_sensors_temperatures (cursor w psutil_sensors_temperatures))
  = Ok cpu_temp ->
  enumerate (oracle w time_time (S (cursor w time_time)))
    (oracle w psutil_process_iter (cursor w psutil_process_iter)) [] = Ok all_procs ->
  p ∈ top_by (TOP_N_PROCESSES cfg) key_cpu all_procs ->
  name p = None ->
  exists w' row rest,
    cycle str_float strftime_minutes cfg w = (Raise TypeError, w') /\
    dict_keys row = header cfg /\
    files w' !! LOG_FILE cfg = Some (log_rows cfg w ++ [dict_values row])%list /\
    screen w'
    = ("--- System Performance Monitor --- (Logging to " +:+ LOG_FILE cfg +:+ ")")
        :: rest /\
    slept w' = (slept w + 1)%Z.
Proof.
  intros Htemp Henum Hp Hname.
  pose proof (cycle_outcome str_float strftime_minutes cfg w) as H.
  cbv beta zeta in H. rewrite Htemp, Henum in H.
  destruct H as (r & w' & Hrun & Hfiles & _ & [rest Hscreen] & Hr).
  assert (Hline : cpu_task_line p = Raise TypeError) by now apply cpu_task_line_nameless.
  assert (Hno : forall listing,
            map cpu_task_line (top_by (TOP_N_PROCESSES cfg) key_cpu all_procs)
            <> map Ok listing).
  { intros listing E.
    apply list_elem_of_In, (in_map cpu_task_line) in Hp. rewrite E, Hline in Hp.
    apply in_map_iff in Hp as (text & Habs & _). discriminate Habs. }
  destruct r as [row|e].
  - destruct Hr as (_ & _ & Hshown).
    destruct Hshown as (hl & cl & ml & mml & dl & ddl & nl & _ & Hc & _).
    now apply Hno in Hc.
  - destruct Hr as (Hslept & _ & [(q & Hq & Hl)|[listing Hc]]).
    2:{ now apply Hno in Hc. }
    destruct (cpu_task_line_raises q e Hl) as [-> _].
    match type of Hfiles with
    | context [dict_values ?row] => exists w', row, rest
    end.
    split; [exact Hrun|].
    split; [apply build_log_data_keys; reflexivity|].
    split; [rewrite Hfiles; apply lookup_insert_eq|].
    split; [exact Hscreen | exact Hslept].
Qed.

Lemma display_failure_after_logging_witness :
  exists w' row,
    cycle sample_str_float sample_strftime default_config nameless_world
    = (Raise TypeError, w') /\
    files w' !! LOG_FILE default_config = Some [dict_values row] /\
    length (dict_values row) = 134.
Proof.
  destruct (display_failure_after_logging sample_str_float sample_strftime
              default_config nameless_world (PyFloat 45)
              (omap (kept 101) (nameless_oracle psutil_process_iter 0))
              {| pid := 9; name := None; cpu_percent := 1; mem_rss := 2048;
                 mem_vms := 4096; disk_read_bytes := 0; disk_write_bytes := 0;
                 disk_io_total := 0; execution_time_s := 101 - 40 |})
    as (w' & row & rest & Hrun & Hkeys & Hfile & _).
  - reflexivity.
  - reflexivity.
  - vm_compute. apply elem_of_cons. right. apply elem_of_cons. now left.
  - reflexivity.
  - exists w', row. split; [exact Hrun|]. split; [exact Hfile|].
    unfold dict_values. rewrite length_map, <- (length_map fst).
    change (map fst row) with (dict_keys row). rewrite Hkeys. reflexivity.
Defined.

(** A completed cycle has slept for the one second of the rate
    measurement plus [max 0 (interval - 1)] seconds: the configured
    interval when that is at least one second, and one second otherwise. *)
Theorem cycle_sleeps_interval (str_float strftime_minutes : Q -> string)
    (cfg : config) (w w' : world) (row : dict pyval) :
  cycle str_float strftime_minutes cfg w = (Ok row, w') ->
  slept w' = (slept w + 1 + Z.max 0 (LOG_INTERVAL_SECONDS cfg - 1))%Z /\
  ((1 <= LOG_INTERVAL_SECONDS cfg)%Z ->
   slept w' = (slept w + LOG_INTERVAL_SECONDS cfg)%Z) /\
  ((LOG_INTERVAL_SECONDS cfg <= 1)%Z -> slept w' = (slept w + 1)%Z).
Proof.
  intros Hrun.
  destruct (cycle_inv _ _ _ _ _ _ Hrun) as (_ & _ & _ & _ & _ & _ & Hslept & _).
  rewrite Hslept. repeat split; lia.
Qed.

Lemma cycle_sleeps_interval_witness :
  slept (snd (cycle sample_str_float sample_strftime default_config sample_world)) = 3%Z.
Proof.
  destruct (cycle sample_str_float sample_strftime default_config sample_world)
    as [r w'] eqn:E.
  assert (Hok : exists row, r = Ok row).
  { change r with (fst (r, w')). rewrite <- E. eexists. vm_compute. reflexivity. }
  destruct Hok as [row ->].
  exact (proj1 (cycle_sleeps_interval _ _ _ _ _ _ E)).
Defined.

(** The system cells of the row of a completed cycle: the uptime is the
    first clock reading of the cycle minus the boot time, the cached
    memory is 0 when the provider has no such figure, the temperature is
    what the lookup delivered, and the disk rates are the differences of
    the two counter readings. *)
Theorem system_cells_of_row (str_float strftime_minutes : Q -> string)
    (cfg : config) (w w' : world) (row : dict pyval) :
  cycle str_float strftime_minutes cfg w = (Ok row, w') ->
  let at0 (p : probe) := oracle w p (cursor w p) in
  let at1 (p : probe) := oracle w p (S (cursor w p)) in
  dict_get row "timestamp" = Some (PyStr (at0 datetime_now)) /\
  dict_get row "cpu_usage_total" = Some (PyFloat (at0 psutil_cpu_percent)) /\
  dict_get row "system_uptime_seconds"
  = Some (PyFloat (at0 time_time - at0 psutil_boot_time)%Q) /\
  dict_get row "memory_cached"
  = Some (PyInt (default 0%Z (vm_cached (at0 psutil_virtual_memory)))) /\
  dict_get row "disk_io_read_bytes_s"
  = Some (PyInt (read_bytes (at1 psutil_disk_io_counters)
                 - read_bytes (at0 psutil_disk_io_counters))%Z) /\
  dict_get row "disk_io_write_bytes_s"
  = Some (PyInt (write_bytes (at1 psutil_disk_io_counters)
                 - write_bytes (at0 psutil_disk_io_counters))%Z) /\
  (exists cpu_temp,
      read_temperature (at0 psutil_sensors_temperatures) = Ok cpu_temp /\
      dict_get row "system_temp_celsius" = Some cpu_temp).
Proof.
  intros Hrun. pose proof (cycle_outcome str_float strftime_minutes cfg w) as H.
  cbv zeta in *.
  destruct (read_temperature _) as [cpu_temp|e1].
  2:{ destruct H as (w1 & H & _). rewrite H in Hrun. discriminate Hrun. }
  destruct (enumerate _ _ _) as [all_procs|e2].
  2:{ destruct H as (w1 & H & _). rewrite H in Hrun. discriminate Hrun. }
  destruct H as (r & w1 & H & _ & _ & _ & Hr). rewrite H in Hrun.
  injection Hrun as -> ->. destruct Hr as (-> & _).
  repeat split;
    try (apply system_cell; [reflexivity | cbn [system_items In]; tauto]).
  exists cpu_temp. split; [reflexivity|].
  apply system_cell; [reflexivity | cbn [system_items In]; tauto].
Qed.

Lemma system_cells_of_row_witness :
  exists row,
    fst (cycle sample_str_float sample_strftime default_config sample_world) = Ok row /\
    dict_get row "memory_cached" = Some (PyInt 0) /\
    dict_get row "disk_io_read_bytes_s" = Some (PyInt 80).
Proof.
  destruct (cycle sample_str_float sample_strftime default_config sample_world)
    as [r w'] eqn:E.
  assert (Hok : exists row, r = Ok row).
  { change r with (fst (r, w')). rewrite <- E. eexists. vm_compute. reflexivity. }
  destruct Hok as [row ->]. exists row. split; [reflexivity|].
  destruct (system_cells_of_row _ _ _ _ _ _ E) as (_ & _ & _ & Hc & Hd & _).
  split; [exact Hc | exact Hd].
Defined.

(** After a completed cycle the console holds the 13 fixed lines and one
    line per selected process in each of the three listings, whatever it
    held before: 13 + 3 * min N (number of processes) lines, at most
    13 + 3 N. *)
Theorem console_line_count (str_float strftime_minutes : Q -> string)
    (cfg : config) (w w' : world) (row : dict pyval) :
  cycle str_float strftime_minutes cfg w = (Ok row, w') ->
  exists all_procs,
    enumerate (oracle w time_time (S (cursor w time_time)))
      (oracle w psutil_process_iter (cursor w psutil_process_iter)) [] = Ok all_procs /\
    length (screen w') = 13 + 3 * Nat.min (TOP_N_PROCESSES cfg) (length all_procs) /\
    length (screen w') <= 13 + 3 * TOP_N_PROCESSES cfg.
Proof.
  intros Hrun.
  destruct (cycle_inv _ _ _ _ _ _ Hrun)
    as (sys & all_procs & _ & Henum & _ & _ & _ & Hshown).
  exists all_procs. split; [exact Henum|].
  rewrite (listing_shown_length _ _ _ _ Hshown).
  unfold top_by. rewrite !length_take.
  rewrite !(Permutation_length (sorted_reverse_perm _ all_procs)). split; lia.
Qed.

Lemma console_line_count_witness :
  length (screen (snd (cycle sample_str_float sample_strftime default_config
                         sample_world))) = 19.
Proof.
  destruct (cycle sample_str_float sample_strftime default_config sample_world)
    as [r w'] eqn:E.
  assert (Hok : exists row, r = Ok row).
  { change r with (fst (r, w')). rewrite <- E. eexists. vm_compute. reflexivity. }
  destruct Hok as [row ->].
  destruct (console_line_count _ _ _ _ _ _ E) as (all_procs & Henum & Hlen & _).
  vm_compute in Henum. injection Henum as <-. exact Hlen.
Defined.

(** ** The log over a whole run *)

Lemma row_length (cfg : config) (sys : list (string * pyval)) (all_procs : list snapshot) :
  map fst sys = system_columns ->
  length (dict_values (build_log_data cfg sys all_procs)) = length (header cfg).
Proof.
  intros Hsys. rewrite <- (build_log_data_keys cfg sys all_procs Hsys).
  unfold dict_values, dict_keys. now rewrite !length_map.
Qed.

Section RunFacts.

Variable str_float : Q -> string.
Variable strftime_minutes : Q -> string.
Variable str_exn : exn -> string.
Variable cfg : config.

(** What one cycle does to the log, whether it completes or not: it
    leaves the log as it was or appends one row of full width, and a
    cycle that completes has appended its row. *)
Lemma cycle_log (w : world) :
  exists r w' rows,
    cycle str_float strftime_minutes cfg w = (r, w') /\
    (forall path, path <> LOG_FILE cfg -> files w' !! path = files w !! path) /\
    log_rows cfg w' = (log_rows cfg w ++ rows)%list /\
    Forall (fun row => length row = length (header cfg)) rows /\
    length rows <= 1 /\
    (forall row, r = Ok row -> rows = [dict_values row]).
Proof.
  pose proof (cycle_outcome str_float strftime_minutes cfg w) as H. cbv zeta in H.
  destruct (read_temperature _) as [cpu_temp|e1].
  2:{ destruct H as (w1 & H & Hf & _). exists (Raise e1), w1, [].
      split; [exact H|]. unfold log_rows. rewrite Hf, app_nil_r.
      repeat split; auto. discriminate. }
  destruct (enumerate _ _ _) as [all_procs|e2].
  2:{ destruct H as (w1 & H & Hf & _). exists (Raise e2), w1, [].
      split; [exact H|]. unfold log_rows. rewrite Hf, app_nil_r.
      repeat split; auto. discriminate. }
  destruct H as (r & w1 & H & Hf & _ & _ & Hr).
  eexists r, w1, [_]. split; [exact H|]. unfold log_rows. rewrite Hf.
  split; [intros path Hne; now apply lookup_insert_ne|].
  split; [now rewrite lookup_insert_eq|].
  split; [constructor; [now apply row_length | constructor]|].
  split; [cbn [length]; lia|].
  intros row ->. now destruct Hr as (-> & _).
Qed.

Lemma cycles_log (n : nat) (w : world) :
  exists r w' rows,
    cycles str_float strftime_minutes cfg n w = (r, w') /\
    log_rows cfg w' = (log_rows cfg w ++ rows)%list /\
    Forall (fun row => length row = length (header cfg)) rows /\
    (forall path, path <> LOG_FILE cfg -> files w' !! path = files w !! path) /\
    length rows <= n /\
    (r = Ok tt -> length rows = n).
Proof.
  revert w. induction n as [|n IH]; intros w; cbn [cycles].
  - exists (Ok tt), w, []. unfold io_ret. rewrite app_nil_r.
    repeat split; auto.
  - unfold io_bind.
    destruct (cycle_log w) as (r1 & w1 & rows1 & Hrun & Hother & Hrows1 & Hall1 & Hle & Hok1).
    rewrite Hrun. destruct r1 as [row|e].
    + rewrite (Hok1 row eq_refl) in *.
      destruct (IH w1) as (r & w' & rows & Hrest & Hrows & Hall & Hother' & Hlen & Hok).
      exists r, w', (dict_values row :: rows). split; [exact Hrest|].
      split; [rewrite Hrows, Hrows1; now rewrite <- app_assoc|].
      split; [constructor; [now inversion Hall1 | exact Hall]|].
      split; [intros path Hne; now rewrite Hother', Hother|].
      cbn [length]. split; [lia|]. intros H. now rewrite Hok.
    + exists (Raise e), w1, rows1. split; [reflexivity|].
      split; [exact Hrows1|]. split; [exact Hall1|]. split; [exact Hother|].
      split; [lia | discriminate].
Qed.

(** [n] cycles in a row add to the log at most one row per cycle, each
    as wide as the header of the configuration, after the rows that were
    there; they leave every other file alone.  All [n] rows are there
    when no cycle failed. *)
Theorem cycles_append_rows (n : nat) (w : world) :
  exists r w' rows,
    cycles str_float strftime_minutes cfg n w = (r, w') /\
    log_rows cfg w' = (log_rows cfg w ++ rows)%list /\
    Forall (fun row => length row = length (header cfg)) rows /\
    (forall path, path <> LOG_FILE cfg -> files w' !! path = files w !! path) /\
    length rows <= n /\
    (r = Ok tt -> length rows = n).
Proof. exact (cycles_log n w). Qed.

End RunFacts.

(** The CPU figure read before the loop is never logged: in a run of one
    cycle that starts without a log file, the file ends up holding the
    header and one row whose "cpu_usage_total" cell (the second one) is
    the second reading of the CPU counter. *)
Theorem priming_reading_is_discarded (str_float strftime_minutes : Q -> string)
    (str_exn : exn -> string) (cfg : config) (w : world)
    (cpu_temp : pyval) (all_procs : list snapshot) :
  files w !! LOG_FILE cfg = None ->
  read_temperature
    (oracle w psutil_sensors_temperatures (cursor w psutil_sensors_temperatures))
  = Ok cpu_temp ->
  enumerate (oracle w time_time (S (cursor w time_time)))
    (oracle w psutil_process_iter (cursor w psutil_process_iter)) [] = Ok all_procs ->
  exists w' row,
    run_spm str_float strftime_minutes str_exn cfg 1 w = (Ok tt, w') /\
    files w' !! LOG_FILE cfg = Some [map PyStr (header cfg); row] /\
    header cfg !! 1 = Some "cpu_usage_total" /\
    row !! 1
    = Some (PyFloat (oracle w psutil_cpu_percent (S (cursor w psutil_cpu_percent)))).
Proof.
  intros Hnone Htemp Henum.
  unfold run_spm. rewrite run_setup_csv, run_ask, Hnone.
  unfold monitor_loop. cbn [cycles]. unfold io_bind at 1.
  match goal with
  | |- context [cycle _ _ _ ?w0] =>
      pose proof (cycle_outcome str_float strftime_minutes cfg w0) as H
  end.
  cbv zeta in H. autorewrite with world in H. rewrite Htemp, Henum in H.
  destruct H as (r & w1 & Hrun & Hfiles & _). rewrite Hrun.
  match type of Hfiles with
  | context [dict_values ?row] => set (logged := dict_values row) in *
  end.
  assert (Hlog : files w1 !! LOG_FILE cfg = Some [map PyStr (header cfg); logged]).
  { rewrite Hfiles, lookup_insert_eq, lookup_insert_eq. reflexivity. }
  assert (Hcell : logged !! 1
                  = Some (PyFloat (oracle w psutil_cpu_percent
                                     (S (cursor w psutil_cpu_percent))))).
  { unfold logged. rewrite build_log_data_items by reflexivity. reflexivity. }
  destruct r as [row|e].
  - unfold io_ret. rewrite print_nl_run.
    eexists _, logged. split; [reflexivity|]. autorewrite with world.
    split; [exact Hlog|]. split; [now rewrite header_columns | exact Hcell].
  - unfold print.
    eexists _, logged. split; [reflexivity|]. autorewrite with world.
    split; [exact Hlog|]. split; [now rewrite header_columns | exact Hcell].
Qed.

Lemma priming_reading_is_discarded_witness :
  exists w' row,
    run_spm sample_str_float sample_strftime (fun _ => "") default_config 1 sample_world
    = (Ok tt, w') /\
    files w' !! LOG_FILE default_config = Some [map PyStr (header default_config); row].
Proof.
  edestruct (priming_reading_is_discarded sample_str_float sample_strftime (fun _ => "")
               default_config sample_world)
    as (w' & row & Hrun & Hfile & _).
  - reflexivity.
  - vm_compute. reflexivity.
  - vm_compute. reflexivity.
  - exists w', row. split; assumption.
Defined.

(** The log does not check its shape: when the file was created for one
    number of ranks and a cycle then runs with the same file under
    another, the row is appended right below the old header, and it has
    as many cells as that header has columns only if the two numbers of
    ranks agree. *)
Theorem schema_drift_is_not_detected (str_float strftime_minutes : Q -> string)
    (cfg1 cfg2 : config) (w w' : world) (row : dict pyval) :
  LOG_FILE cfg1 = LOG_FILE cfg2 ->
  files w !! LOG_FILE cfg1 = None ->
  cycle str_float strftime_minutes cfg2 (snd (setup_csv cfg1 w)) = (Ok row, w') ->
  files w' !! LOG_FILE cfg1 = Some [map PyStr (header cfg1); dict_values row] /\
  length (dict_values row) = 14 + 3 * (TOP_N_PROCESSES cfg2 * 8) /\
  length (map PyStr (header cfg1)) = 14 + 3 * (TOP_N_PROCESSES cfg1 * 8) /\
  (length (dict_values row) = length (map PyStr (header cfg1))
   <-> TOP_N_PROCESSES cfg1 = TOP_N_PROCESSES cfg2).
Proof.
  intros Hsame Hnone Hrun.
  destruct (cycle_inv _ _ _ _ _ _ Hrun)
    as (sys & all_procs & Hsys & _ & -> & Hfiles & _).
  assert (Hrow : length (dict_values (build_log_data cfg2 sys all_procs))
                 = 14 + 3 * (TOP_N_PROCESSES cfg2 * 8)).
  { rewrite (row_length cfg2 sys all_procs Hsys), header_columns, length_app,
      top_columns_length. reflexivity. }
  assert (Hhead : length (map PyStr (header cfg1)) = 14 + 3 * (TOP_N_PROCESSES cfg1 * 8)).
  { rewrite length_map, header_columns, length_app, top_columns_length. reflexivity. }
  split.
  - rewrite Hfiles, <- Hsame, lookup_insert_eq.
    unfold setup_csv. rewrite Hnone. cbn [snd]. autorewrite with world.
    now rewrite lookup_insert_eq.
  - split; [exact Hrow|]. split; [exact Hhead|]. rewrite Hrow, Hhead. lia.
Qed.

Lemma schema_drift_is_not_detected_witness :
  exists row,
    fst (cycle sample_str_float sample_strftime narrow_config
           (snd (setup_csv default_config sample_world))) = Ok row /\
    length (dict_values row) = 86 /\
    length (map PyStr (header default_config)) = 134.
Proof.
  destruct (cycle sample_str_float sample_strftime narrow_config
              (snd (setup_csv default_config sample_world))) as [r w'] eqn:E.
  assert (Hok : exists row, r = Ok row).
  { change r with (fst (r, w')). rewrite <- E. eexists. vm_compute. reflexivity. }
  destruct Hok as [row ->]. exists row. split; [reflexivity|].
  assert (Hsame : LOG_FILE default_config = LOG_FILE narrow_config) by reflexivity.
  assert (Hnone : files sample_world !! LOG_FILE default_config = None) by reflexivity.
  destruct (schema_drift_is_not_detected sample_str_float sample_strftime
              default_config narrow_config sample_world w' row Hsame Hnone E)
    as (_ & Hrow & Hhead & _).
  split; [exact Hrow | exact Hhead].
Defined.

(** ** More on sizes *)

Lemma round_half_even_integer (m : Z) : round_half_even (inject_Z m) = m.
Proof.
  unfold round_half_even. rewrite Qfloor_Z.
  assert (E : (inject_Z m - inject_Z m == 0)%Q) by ring.
  now rewrite (Qcompare_comp _ _ E (1 # 2) (1 # 2) (Qeq_refl _)).
Qed.

Lemma fmt2_integer (n : Z) :
  (0 <= n)%Z -> fmt2 (inject_Z n) = str_Z n +:+ ".00".
Proof.
  intros Hn. unfold fmt2.
  assert (E : (Qabs (inject_Z n) * 100 == inject_Z (n * 100))%Q).
  { rewrite Qabs_pos by (change 0%Q with (inject_Z 0); now rewrite <- Zle_Qle).
    now rewrite inject_Z_mult. }
  rewrite (round_half_even_proper _ _ E), round_half_even_integer.
  rewrite Z.div_mul, Z.mod_mul by lia.
  assert (Hle : Qle_bool 0 (inject_Z n) = true).
  { apply Qle_bool_iff. change 0%Q with (inject_Z 0). now rewrite <- Zle_Qle. }
  rewrite Hle. reflexivity.
Qed.

(** A count below 1024 is printed as it is, without scaling and without
    a unit letter, and this includes the negative values down to -2^53
    (a rate is negative when a counter went back), which a double holds
    exactly; a nonnegative count below 1024 is printed as its decimal
    numeral followed by ".00" and the suffix. *)
Theorem get_size_below_factor (n : Z) (suffix : string) :
  (- 2 ^ 53 < n < 1024)%Z ->
  get_size n suffix = Ok (fmt2 (inject_Z n) +:+ suffix) /\
  ((0 <= n)%Z -> get_size n suffix = Ok (str_Z n +:+ ".00" +:+ suffix)).
Proof.
  intros Hn.
  assert (E : get_size n suffix = Ok (fmt2 (inject_Z n) +:+ suffix)).
  { rewrite get_size_int_small by lia.
    destruct (float_of_int_exact n) as (x & -> & Ev).
    { assert ((2 ^ 10 < 2 ^ 53)%Z) by (apply Z.pow_lt_mono_r; lia). lia. }
    cbn [result_bind]. now rewrite (fmt2_proper _ _ Ev). }
  split; [exact E|]. intros H0. rewrite E, fmt2_integer by exact H0.
  now rewrite append_assoc.
Qed.

Lemma get_size_below_factor_witness :
  get_size (-5000000) "B" = Ok (fmt2 (inject_Z (-5000000)) +:+ "B") /\
  get_size 1023 "B" = Ok (str_Z 1023 +:+ ".00" +:+ "B").
Proof.
  assert (H1 : (- 2 ^ 53 < -5000000 < 1024)%Z) by (split; [apply Z.ltb_lt|]; reflexivity).
  assert (H2 : (- 2 ^ 53 < 1023 < 1024)%Z) by (split; [apply Z.ltb_lt|]; reflexivity).
  split.
  - exact (proj1 (get_size_below_factor (-5000000) "B" H1)).
  - exact (proj2 (get_size_below_factor 1023 "B" H2) ltac:(lia)).
Defined.

(** The unit follows from the magnitude as long as the count is below
    2^53, where no division rounds: a count of at least 1024^d and below
    1024^(d+1), for d from 0 to 5, is divided by 1024^d and gets the d-th
    unit of the list. *)
Theorem get_size_unit_by_magnitude (d : nat) (n : Z) (suffix : string) :
  d <= 5 ->
  (1024 ^ Z.of_nat d <= n < 1024 ^ Z.of_nat (S d))%Z ->
  (n < 2 ^ 53)%Z ->
  get_size n suffix
  = Ok (fmt2 (inject_Z n / inject_Z (1024 ^ Z.of_nat d)) +:+ nth d units "" +:+ suffix).
Proof.
  intros Hd [Hlo Hhi] H53.
  assert (H0 : (0 < n)%Z).
  { pose proof (pow1024_pos d). lia. }
  assert (Habs : (Z.abs n < 2 ^ 53)%Z) by lia.
  assert (Hn : (0 <= n < 2 ^ 1034 - 2 ^ 980)%Z).
  { assert ((2 ^ 53 < 2 ^ 1033)%Z) by (apply Z.pow_lt_mono_r; lia). lia. }
  destruct (get_size_spec n suffix Hn) as (d' & Hd' & Heq & Hlt & Hge).
  assert (Hsc : forall j, (rendered j n == scaled j (inject_Z n))%Q).
  { intros j. now rewrite rendered_exact, scaled_value. }
  assert (d' = d) as ->.
  { destruct (Nat.lt_trichotomy d' d) as [Hc|[Hc|Hc]]; [|exact Hc|].
    - assert (Hd6 : d' < 6) by lia.
      pose proof (Hlt Hd6) as H1. rewrite Hsc in H1.
      apply scaled_lt_factor in H1.
      assert ((1024 ^ Z.of_nat (S d') <= 1024 ^ Z.of_nat d)%Z)
        by (apply Z.pow_le_mono_r; lia).
      lia.
    - pose proof (Hge d Hc) as H1. rewrite Hsc in H1.
      apply scaled_ge_factor in H1. lia. }
  rewrite Heq, (fmt2_proper _ _ (rendered_exact d n Habs)).
  now rewrite (nth_indep units "P" "") by (change (length units) with 6; lia).
Qed.

Lemma get_size_unit_by_magnitude_witness :
  get_size 5000000 "B"
  = Ok (fmt2 (inject_Z 5000000 / inject_Z (1024 ^ Z.of_nat 2)) +:+ "M" +:+ "B").
Proof.
  apply (get_size_unit_by_magnitude 2 5000000 "B"); [lia| |].
  - split; [apply Z.leb_le | apply Z.ltb_lt]; reflexivity.
  - apply Z.ltb_lt. reflexivity.
Defined.

(** ** More on ranking *)

(** The number of ranks only cuts the ranking: a selection with fewer
    ranks is the beginning of the one with more, and once there are at
    least as many ranks as elements the selection is the whole list in
    another order. *)
Theorem top_by_grows_with_n {A} (key : A -> Q) (n m : nat) (l : list A) :
  n <= m ->
  top_by n key l `prefix_of` top_by m key l /\
  (length l <= n -> top_by n key l ≡ₚ l).
Proof.
  intros Hnm. unfold top_by. split.
  - replace n with (Nat.min n m) at 1 by lia.
    rewrite <- firstn_firstn. apply prefix_take.
  - intros Hlen. rewrite take_ge
      by (rewrite (Permutation_length (sorted_reverse_perm key l)); lia).
    apply sorted_reverse_perm.
Qed.

Lemma top_by_grows_with_n_witness :
  top_by 2 key_cpu five_processes `prefix_of` top_by 3 key_cpu five_processes.
Proof. exact (proj1 (top_by_grows_with_n key_cpu 2 3 five_processes ltac:(lia))). Defined.

(** Rank 1 is a maximum: the first element of a selection has a key at
    least as large as that of every element of the list. *)
Theorem first_rank_is_maximal {A} (key : A -> Q) (n : nat) (l : list A)
    (x : A) (rest : list A) :
  top_by n key l = x :: rest ->
  x ∈ l /\ forall y, y ∈ l -> (key y <= key x)%Q.
Proof.
  intros Htop. unfold top_by in Htop.
  pose proof (sorted_reverse_sorted key l) as Hs.
  pose proof (sorted_reverse_perm key l) as Hp.
  destruct (sorted_reverse key l) as [|x' s] eqn:E.
  - rewrite take_nil in Htop. discriminate Htop.
  - destruct n as [|n]; [discriminate Htop|].
    cbn [take] in Htop. injection Htop as -> _.
    apply StronglySorted_inv in Hs as [_ Hall]. split.
    + rewrite <- Hp. left.
    + intros y Hy. rewrite <- Hp in Hy.
      apply elem_of_cons in Hy as [->|Hy]; [apply Qle_refl|].
      rewrite Forall_forall in Hall. exact (Hall y Hy).
Qed.

Lemma first_rank_is_maximal_witness :
  (key_cpu (nth 4 five_processes lone_snapshot)
   <= key_cpu (nth 1 five_processes lone_snapshot))%Q.
Proof.
  refine (proj2 (first_rank_is_maximal key_cpu 3 five_processes
                   (nth 1 five_processes lone_snapshot) _ eq_refl)
            (nth 4 five_processes lone_snapshot) _).
  do 4 right. left.
Defined.

(** ** More on the enumeration *)

(** The first process whose reading fails with an exception other than
    the three of the [except] clause ends the enumeration with that
    exception, and the processes after it are not looked at; in
    particular a process whose memory figures are missing ends it with
    AttributeError. *)
Theorem enumeration_stops_at_other_errors (w : world) (before after : list process)
    (proc : process) (e : exn) :
  let current_time := oracle w time_time (cursor w time_time) in
  oracle w psutil_process_iter (cursor w psutil_process_iter)
  = (before ++ proc :: after)%list ->
  Forall (fun p => forall e', snapshot_of current_time p = Raise e' ->
                              is_transient e' = true) before ->
  snapshot_of current_time proc = Raise e ->
  is_transient e = false ->
  fst (get_all_processes_info w) = Raise e /\
  (forall pinfo, info proc = Ok pinfo -> info_memory_info pinfo = None ->
                 e = AttributeError).
Proof.
  intros current_time Htable Hbefore Hproc He.
  rewrite get_all_processes_info_run. cbn [fst]. fold current_time.
  rewrite Htable. clear Htable. split.
  - generalize (@nil snapshot) as acc.
    induction Hbefore as [|p ps Hp _ IH]; intros acc; cbn [app enumerate].
    + now rewrite Hproc, He.
    + destruct (snapshot_of current_time p) as [s|e'] eqn:E; [apply IH|].
      rewrite (Hp e' eq_refl). apply IH.
  - intros pinfo Hinfo Hmem. unfold snapshot_of in Hproc.
    rewrite Hinfo, Hmem in Hproc. now injection Hproc as <-.
Qed.

Lemma enumeration_stops_at_other_errors_witness :
  fst (get_all_processes_info denied_world) = Raise AttributeError.
Proof.
  refine (proj1 (enumeration_stops_at_other_errors denied_world
                   [sample_process 1 "init" 0 1536] [sample_process 7 "spm" 3 4096]
                   denied_process AttributeError eq_refl _ eq_refl eq_refl)).
  repeat constructor. intros e' H. vm_compute in H. discriminate H.
Defined.

(** ** More on the temperature lookup *)

Lemma lookup_temperature_raises (temps : sensors) (e : exn) :
  lookup_temperature temps = Raise e -> e = AttributeError \/ e = IndexError.
Proof.
  unfold lookup_temperature.
  destruct (default [entry_dict []] (dict_get temps "coretemp")) as [|first rest];
    cbn [index0 result_bind]; [intros H; injection H as <-; auto|].
  destruct first as [label current high critical|d]; cbn [entry_get result_bind];
    [intros H; injection H as <-; auto|].
  destruct (is_NA _ && _); [|discriminate].
  destruct (dict_values temps) as [|group groups]; cbn [index0 result_bind];
    [intros H; injection H as <-; auto|].
  destruct group as [|[label current high critical|d'] entries];
    cbn [index0 result_bind entry_current]; intros H;
    first [discriminate H | injection H as <-; auto].
Qed.

(** The temperature reading fails only when the provider call itself
    raised, and raised something else than AttributeError, IndexError or
    KeyError; then that exception is passed on unchanged.  Whatever goes
    wrong inside the lookup gives "N/A". *)
Theorem temperature_failure_comes_from_the_call (reading : result sensors) (e : exn) :
  read_temperature reading = Raise e <->
  reading = Raise e /\ e <> AttributeError /\ e <> IndexError /\ e <> KeyError.
Proof.
  unfold read_temperature. split.
  - destruct reading as [temps|e0]; cbn [result_bind].
    + destruct (lookup_temperature temps) as [v|e1] eqn:E; [discriminate|].
      destruct (lookup_temperature_raises temps e1 E) as [-> | ->]; discriminate.
    + destruct e0; intros H; try discriminate H; injection H as <-;
        repeat split; discriminate.
  - intros (-> & H1 & H2 & H3). cbn [result_bind]. now destruct e.
Qed.

Lemma temperature_failure_comes_from_the_call_witness :
  read_temperature (Raise OtherError) = Raise OtherError.
Proof.
  apply (proj2 (temperature_failure_comes_from_the_call (Raise OtherError) OtherError)).
  repeat split; discriminate.
Defined.

(** With no "coretemp" group, the first entry of the first group in the
    provider's order is used when it is a reading as the provider
    returns it; the group's name plays no part, so this can be any
    sensor of the machine. *)
Theorem temperature_uses_first_group (temps others : sensors) (group label : string)
    (current : Q) (high critical : option Q) (entries : list sensor_entry) :
  temps = (group, shwtemp label current high critical :: entries) :: others ->
  dict_get temps "coretemp" = None ->
  read_temperature (Ok temps) = Ok (PyFloat current).
Proof.
  intros -> Hnone. unfold read_temperature, lookup_temperature.
  cbn [result_bind]. rewrite Hnone. reflexivity.
Qed.

Lemma temperature_uses_first_group_witness :
  read_temperature
    (Ok [("BAT0", [shwtemp "" 31 None None]); ("acpitz", [shwtemp "" 45 None None])])
  = Ok (PyFloat 31).
Proof.
  apply (temperature_uses_first_group _ [("acpitz", [shwtemp "" 45 None None])]
           "BAT0" "" 31 None None []); reflexivity.
Defined.

(** A "coretemp" group that is present but empty gives "N/A" even when
    other groups have readings: the IndexError of its first element is
    absorbed before the fallback is reached.  The same holds when the
    first group of the fallback is empty. *)
Theorem empty_group_gives_no_temperature (temps : sensors) :
  (dict_get temps "coretemp" = Some [] -> read_temperature (Ok temps) = Ok NA) /\
  (forall group others,
      temps = (group, []) :: others -> dict_get temps "coretemp" = None ->
      read_temperature (Ok temps) = Ok NA).
Proof.
  split.
  - intros H. unfold read_temperature, lookup_temperature.
    cbn [result_bind]. rewrite H. reflexivity.
  - intros group others -> H. unfold read_temperature, lookup_temperature.
    cbn [result_bind]. rewrite H. reflexivity.
Qed.

Lemma empty_group_gives_no_temperature_witness :
  read_temperature (Ok [("coretemp", []); ("acpitz", [shwtemp "" 45 None None])])
  = Ok NA.
Proof.
  apply (proj1 (empty_group_gives_no_temperature
                  [("coretemp", []); ("acpitz", [shwtemp "" 45 None None])])).
  reflexivity.
Defined.

(** The first branch of the lookup works on dictionary-shaped entries
    only: a "coretemp" whose first entry is a dictionary with a
    "current" value other than "N/A" yields that value; the fallback
    branch does not work on them: with no "coretemp", a first group
    whose first entry is a dictionary gives "N/A". *)
Theorem temperature_of_dictionary_entries (temps : sensors) (d : list (string * pyval)) :
  (forall rest v,
      dict_get temps "coretemp" = Some (entry_dict d :: rest) ->
      dict_get d "current" = Some v -> is_NA v = false ->
      read_temperature (Ok temps) = Ok v) /\
  (forall group entries others,
      temps = (group, entry_dict d :: entries) :: others ->
      dict_get temps "coretemp" = None ->
      read_temperature (Ok temps) = Ok NA).
Proof.
  split.
  - intros rest v Hcore Hcur Hna. unfold read_temperature, lookup_temperature.
    cbn [result_bind]. rewrite Hcore. cbn [from_option id index0 result_bind entry_get].
    rewrite Hcur. cbn [from_option id]. rewrite Hna. cbn [andb]. now destruct v.
  - intros group entries others -> Hnone. unfold read_temperature, lookup_temperature.
    cbn [result_bind]. rewrite Hnone. reflexivity.
Qed.

Lemma temperature_of_dictionary_entries_witness :
  read_temperature (Ok [("coretemp", [entry_dict [("current", PyFloat 45)]])])
  = Ok (PyFloat 45).
Proof.
  apply (proj1 (temperature_of_dictionary_entries
                  [("coretemp", [entry_dict [("current", PyFloat 45)]])]
                  [("current", PyFloat 45)]) [] (PyFloat 45)); reflexivity.
Defined.

(** ** More on the columns and the rates *)

(** A process column can be read back: within the three categories its
    name determines the category, the rank and the field, and it is
    never the name of a system column. *)
Theorem column_name_decodes (c c' : string) (i i' : nat) (f f' : string) :
  In c categories -> In c' categories ->
  (column c i f = column c' i' f' <-> c = c' /\ i = i' /\ f = f') /\
  ~ In (column c i f) system_columns.
Proof.
  intros Hc Hc'. split; [|apply column_not_system]. split.
  - now apply column_inj.
  - now intros (-> & -> & ->).
Qed.

Lemma column_name_decodes_witness :
  column "disk_io" 1 "pid" <> column "cpu" 1 "pid" /\
  column "cpu" 1 "pid" <> column "cpu" 11 "pid".
Proof.
  split; intros H.
  - apply (proj1 (column_name_decodes "disk_io" "cpu" 1 1 "pid" "pid"
                    ltac:(cbn; tauto) ltac:(cbn; tauto))) in H.
    destruct H as (H & _). discriminate H.
  - apply (proj1 (column_name_decodes "cpu" "cpu" 1 11 "pid" "pid"
                    ltac:(cbn; tauto) ltac:(cbn; tauto))) in H.
    destruct H as (_ & H & _). discriminate H.
Defined.

Lemma Qdiv_million_sign (z : Z) :
  ((inject_Z (z * 8) / 1000000 < 0)%Q <-> (z < 0)%Z) /\
  (z = 0%Z -> (inject_Z (z * 8) / 1000000 == 0)%Q).
Proof.
  split.
  - change 1000000%Q with (inject_Z 1000000). change 0%Q with (inject_Z 0).
    rewrite (Qdiv_lt_Z (z * 8) 1000000 0) by lia. lia.
  - intros ->. reflexivity.
Qed.

(** The rates are not clamped: a rate is negative exactly when the
    counter read after the pause is smaller than the one read before it
    (a counter that was reset or wrapped), and all four rates are zero
    when the two readings agree. *)
Theorem rates_follow_the_counters (w : world) :
  let last_disk := oracle w psutil_disk_io_counters (cursor w psutil_disk_io_counters) in
  let new_disk := oracle w psutil_disk_io_counters (S (cursor w psutil_disk_io_counters)) in
  let last_net := oracle w psutil_net_io_counters (cursor w psutil_net_io_counters) in
  let new_net := oracle w psutil_net_io_counters (S (cursor w psutil_net_io_counters)) in
  exists disk_read_s disk_write_s mbps_sent mbps_recv w',
    get_io_rates w = (Ok (disk_read_s, disk_write_s, mbps_sent, mbps_recv), w') /\
    ((disk_read_s < 0)%Z <-> (read_bytes new_disk < read_bytes last_disk)%Z) /\
    ((disk_write_s < 0)%Z <-> (write_bytes new_disk < write_bytes last_disk)%Z) /\
    ((mbps_sent < 0)%Q <-> (bytes_sent new_net < bytes_sent last_net)%Z) /\
    ((mbps_recv < 0)%Q <-> (bytes_recv new_net < bytes_recv last_net)%Z) /\
    (new_disk = last_disk -> new_net = last_net ->
     disk_read_s = 0%Z /\ disk_write_s = 0%Z /\
     (mbps_sent == 0)%Q /\ (mbps_recv == 0)%Q).
Proof.
  intros last_disk new_disk last_net new_net.
  eexists (read_bytes new_disk - read_bytes last_disk)%Z,
    (write_bytes new_disk - write_bytes last_disk)%Z,
    (inject_Z ((bytes_sent new_net - bytes_sent last_net) * 8) / 1000000)%Q,
    (inject_Z ((bytes_recv new_net - bytes_recv last_net) * 8) / 1000000)%Q, _.
  split; [reflexivity|]. split; [lia|]. split; [lia|].
  split; [rewrite (proj1 (Qdiv_million_sign _)); lia|].
  split; [rewrite (proj1 (Qdiv_million_sign _)); lia|].
  intros -> ->. rewrite !Z.sub_diag. repeat split; reflexivity.
Qed.

(** Two measurements in a row use the first and second and then the
    third and fourth readings of each counter: what the counters gained
    between the second and the third reading, outside the two pauses of
    one second, is in neither result. *)
Theorem successive_rates_skip_the_gap (w : world) :
  let disk (i : nat) := oracle w psutil_disk_io_counters (i + cursor w psutil_disk_io_counters) in
  let net (i : nat) := oracle w psutil_net_io_counters (i + cursor w psutil_net_io_counters) in
  exists first second w',
    io_bind get_io_rates
      (fun a => io_bind get_io_rates (fun b => io_ret (a, b))) w
    = (Ok (first, second), w') /\
    fst (fst (fst first)) = (read_bytes (disk 1%nat) - read_bytes (disk 0%nat))%Z /\
    fst (fst (fst second)) = (read_bytes (disk 3%nat) - read_bytes (disk 2%nat))%Z /\
    snd (fst (fst first)) = (write_bytes (disk 1%nat) - write_bytes (disk 0%nat))%Z /\
    snd (fst (fst second)) = (write_bytes (disk 3%nat) - write_bytes (disk 2%nat))%Z /\
    snd (fst second)
    = (inject_Z ((bytes_sent (net 3%nat) - bytes_sent (net 2%nat)) * 8) / 1000000)%Q /\
    slept w' = (slept w + 2)%Z.
Proof.
  cbv zeta. rewrite run_get_io_rates. cbv zeta. rewrite run_get_io_rates. cbv zeta.
  unfold io_ret. autorewrite with world.
  eexists _, _, _. split; [reflexivity|]. cbn [fst snd Nat.add].
  repeat split. autorewrite with world. lia.
Qed.
